(** * Pyrogram helper utilities: a shallow embedding of [pyrogram_helpers.py]

    The module is a collection of pure helpers: command tokenisation,
    message-link building and parsing, duration and size formatting, and
    accessors on message and user objects.  Each Python function is
    embedded under its own name; the builtins it calls ([str.strip],
    [str.split], [int], [float], [re.search], ...) are modelled in the
    modules [Py], [Float64] and [Re] below.

    Characters are the 8-bit [ascii] of the Standard Library, read as the
    code points U+0000 to U+00FF; the character classes of Python
    (whitespace, decimal digits, word characters) are written out for that
    range.  Python integers are [Z].  The conversions between integers
    and their decimal text ([str], an f-string field, [int]) carry
    CPython's limit on the number of digits, at its default of 4300:
    beyond it they raise [ValueError]. *)

From Stdlib Require Import ZArith List String Ascii Bool Lia.
From Stdlib Require Import DecimalString DecimalZ.
From Equations Require Import Equations.
Import ListNotations.

Local Open Scope string_scope.
Local Open Scope Z_scope.

(** ** Python builtins *)

Module Py.

(** The exceptions that the builtins used here can raise. *)
Inductive exn : Type :=
| ValueError
| IndexError
| OverflowError.

(** A computation either returns a value or raises. *)
Inductive result (A : Type) : Type :=
| Return (a : A)
| Raise (e : exn).
Arguments Return {A} a.
Arguments Raise {A} e.

Definition bind {A B : Type} (m : result A) (k : A -> result B) : result B :=
  match m with
  | Return a => k a
  | Raise e => Raise e
  end.

(** [try: m  except <handled>: h] *)
Definition try_except {A : Type} (m : result A) (handled : exn -> bool)
           (h : result A) : result A :=
  match m with
  | Return a => Return a
  | Raise e => if handled e then h else Raise e
  end.

Definition is_ValueError (e : exn) : bool :=
  match e with ValueError => true | _ => false end.

Definition is_ValueError_or_IndexError (e : exn) : bool :=
  match e with ValueError | IndexError => true | OverflowError => false end.

(** *** Character classes *)

Definition code (c : ascii) : N := N_of_ascii c.

Definition in_range (lo hi : N) (c : ascii) : bool :=
  ((lo <=? code c) && (code c <=? hi))%N.

(** [str.isspace] on one character: general category Zs or bidirectional
    class WS, B or S.  Below U+0100 these are TAB..CR, FS..US, SPACE,
    NEL (U+0085) and NO-BREAK SPACE (U+00A0). *)
Definition isspace (c : ascii) : bool :=
  in_range 9 13 c || in_range 28 31 c || in_range 32 32 c
  || in_range 133 133 c || in_range 160 160 c.

(** Unicode decimal digits (category Nd): below U+0100 only "0".."9". *)
Definition isdecimal (c : ascii) : bool := in_range 48 57 c.

Definition digit_value (c : ascii) : Z := Z.of_N (code c) - 48.

(** [str.isalnum] on one character, below U+0100: the ASCII letters and
    digits, the letters of Latin-1 (U+00AA, U+00B5, U+00BA, U+00C0..U+00FF
    without the two operators U+00D7 and U+00F7), the superscript digits
    (U+00B2, U+00B3, U+00B9) and the vulgar fractions (U+00BC..U+00BE). *)
Definition isalnum (c : ascii) : bool :=
  in_range 48 57 c || in_range 65 90 c || in_range 97 122 c
  || in_range 170 170 c || in_range 178 179 c || in_range 181 181 c
  || in_range 185 186 c || in_range 188 190 c
  || in_range 192 214 c || in_range 216 246 c || in_range 248 255 c.

(** *** Strings *)

(** Truthiness of a string: [not s] holds for the empty string only. *)
Definition is_empty (s : string) : bool :=
  match s with
  | EmptyString => true
  | String _ _ => false
  end.

(** [s.startswith(p)] *)
Definition startswith (p s : string) : bool := String.prefix p s.

(** [sub in s] *)
Fixpoint contains (sub s : string) : bool :=
  String.prefix sub s ||
  match s with
  | EmptyString => false
  | String _ s' => contains sub s'
  end.

(** [s[n:]] for [n >= 0] *)
Fixpoint drop (n : nat) (s : string) : string :=
  match n, s with
  | O, _ => s
  | S _, EmptyString => EmptyString
  | S n', String _ s' => drop n' s'
  end.

(** Removal of the leading characters that satisfy [p]. *)
Fixpoint lstrip_with (p : ascii -> bool) (s : string) : string :=
  match s with
  | EmptyString => EmptyString
  | String c s' => if p c then lstrip_with p s' else s
  end.

(** Removal of the trailing characters that satisfy [p]. *)
Fixpoint rstrip_with (p : ascii -> bool) (s : string) : string :=
  match s with
  | EmptyString => EmptyString
  | String c s' =>
      match rstrip_with p s' with
      | EmptyString => if p c then EmptyString else String c EmptyString
      | r => String c r
      end
  end.

(** [s.strip()] *)
Definition strip (s : string) : string :=
  rstrip_with isspace (lstrip_with isspace s).

(** [s.rstrip(chars)] for a one-character [chars] *)
Definition rstrip_char (ch : ascii) (s : string) : string :=
  rstrip_with (Ascii.eqb ch) s.

(** [s.split(sep)] for a one-character separator: the pieces between the
    occurrences of [sep], empty pieces included; never the empty list. *)
Fixpoint split_char (sep : ascii) (s : string) : list string :=
  match s with
  | EmptyString => [EmptyString]
  | String c s' =>
      if Ascii.eqb c sep then EmptyString :: split_char sep s'
      else match split_char sep s' with
           | piece :: rest => String c piece :: rest
           | [] => [String c EmptyString]
           end
  end.

(** The token collected so far (in reverse) is emitted unless empty. *)
Definition flush (tok : list ascii) : list string :=
  match tok with
  | [] => []
  | _ :: _ => [string_of_list_ascii (rev tok)]
  end.

(** [s.split()]: the maximal runs of non-whitespace characters. *)
Fixpoint split_ws_from (tok : list ascii) (s : string) : list string :=
  match s with
  | EmptyString => flush tok
  | String c s' =>
      if isspace c then (flush tok ++ split_ws_from [] s')%list
      else split_ws_from (c :: tok) s'
  end.

Definition split (s : string) : list string := split_ws_from [] s.

(** [sep.join(parts)] *)
Definition join (sep : string) (parts : list string) : string :=
  String.concat sep parts.

(** *** Sequences *)

(** [l[i]], with Python's negative indices. *)
Definition index {A : Type} (l : list A) (i : Z) : result A :=
  let n := Z.of_nat (List.length l) in
  let j := if i <? 0 then i + n else i in
  if (j <? 0) || (n <=? j) then Raise IndexError
  else match nth_error l (Z.to_nat j) with
       | Some a => Return a
       | None => Raise IndexError
       end.

Definition len {A : Type} (l : list A) : Z := Z.of_nat (List.length l).

(** [l.append(x)] *)
Definition append {A : Type} (l : list A) (x : A) : list A := (l ++ [x])%list.

(** *** Integers and their text *)

(** The decimal text of [z]: its digits, after a minus sign when
    negative. *)
Definition decimal (z : Z) : string := NilZero.string_of_int (Z.to_int z).

(** The most digits that a conversion between an integer and its decimal
    text accepts: [sys.int_info.default_max_str_digits]. *)
Definition max_str_digits : Z := 4300.

(** The number of decimal digits in a text; the sign, underscores and
    whitespace do not count. *)
Fixpoint count_digits (s : string) : Z :=
  match s with
  | EmptyString => 0
  | String c s' => (if isdecimal c then 1 else 0) + count_digits s'
  end.

(** [str(z)], also what an f-string field prints for an integer: the
    decimal text, and [ValueError] when it has more than
    [max_str_digits] digits. *)
Definition str (z : Z) : result string :=
  let text := decimal z in
  if max_str_digits <? count_digits text then Raise ValueError
  else Return text.

(** The whitespace that [int] skips around the number: the ASCII
    characters TAB..CR and SPACE, and the whitespace outside ASCII
    (FS..US are not skipped, although [str.strip] removes them). *)
Definition int_space (c : ascii) : bool :=
  in_range 9 13 c || in_range 32 32 c || in_range 133 133 c
  || in_range 160 160 c.

(** Digits with single underscores between them: [after_digit] tells
    whether the previous character was a digit. *)
Fixpoint digits_value (acc : Z) (after_digit : bool) (s : string) : option Z :=
  match s with
  | EmptyString => if after_digit then Some acc else None
  | String c s' =>
      if isdecimal c then digits_value (10 * acc + digit_value c) true s'
      else if Ascii.eqb c "_" then
             if after_digit then digits_value acc false s' else None
      else None
  end.

(** [int(s)] in base 10: surrounding whitespace, an optional sign, then
    digits; anything else raises [ValueError], and so do more than
    [max_str_digits] digits, leading zeros included. *)
Definition int (s : string) : result Z :=
  let s := rstrip_with int_space (lstrip_with int_space s) in
  let '(negative, body) :=
    match s with
    | String "-" r => (true, r)
    | String "+" r => (false, r)
    | _ => (false, s)
    end in
  match digits_value 0 false body with
  | Some n =>
      if max_str_digits <? count_digits body then Raise ValueError
      else Return (if negative then - n else n)
  | None => Raise ValueError
  end.

End Py.

Notation "x <- m ;; k" := (Py.bind m (fun x => k))
  (at level 61, m at next level, right associativity).

Import Py.

(** ** Floating point: the binary64 values of [format_size] *)

Module Float64.

(** A finite binary64 number, held by its exact value [mant * 2^expo]
    with [|mant| < 2^53].  The operations below are the IEEE-754
    operations of Python's [float] (round to nearest, ties to even),
    computed on that exact value. *)
Record t : Type := mk { mant : Z; expo : Z }.

(** [n / 2^k] for [n >= 0] and [k > 0], rounded to the nearest integer,
    ties to the even one. *)
Definition half_even (n k : Z) : Z :=
  let q := n / 2 ^ k in
  let r := n mod 2 ^ k in
  let half := 2 ^ (k - 1) in
  if r <? half then q
  else if half <? r then q + 1
  else if Z.even q then q else q + 1.

(** [float(n)] for an integer [n]: exact up to 53 bits, rounded beyond,
    and [OverflowError] when the rounded value needs an exponent
    above that of the largest binary64 number, (2^53 - 1) * 2^971. *)
Definition of_int (n : Z) : result t :=
  let a := Z.abs n in
  let e := Z.log2 a - 52 in
  if e <=? 0 then Return (mk n 0)
  else
    let m := half_even a e in
    let '(m, e) := if m =? 2 ^ 53 then (2 ^ 52, e + 1) else (m, e) in
    if 971 <? e then Raise OverflowError
    else Return (mk (Z.sgn n * m) e).

(** [x >= n] for an integer [n]: Python compares the exact values. *)
Definition ge_int (x : t) (n : Z) : bool :=
  if 0 <=? expo x then n <=? mant x * 2 ^ expo x
  else n * 2 ^ (- expo x) <=? mant x.

(** [x / 2^k] for [k >= 0].  The quotient by a power of two has the
    significand of [x], so the division is exact, unless the quotient
    falls below the spacing 2^-1074 of the smallest binary64 numbers,
    where it is rounded to a multiple of that spacing. *)
Definition div_pow2 (x : t) (k : Z) : t :=
  let e := expo x - k in
  if -1074 <=? e then mk (mant x) e
  else mk (Z.sgn (mant x) * half_even (Z.abs (mant x)) (-1074 - e)) (-1074).

(** [int(x)]: truncation towards zero. *)
Definition to_int (x : t) : Z :=
  if 0 <=? expo x then mant x * 2 ^ expo x
  else Z.quot (mant x) (2 ^ (- expo x)).

Definition two_digits (d : Z) : string := decimal (d / 10) ++ decimal (d mod 10).

(** [f"{x:.2f}"]: the exact value rounded to hundredths, ties to even,
    printed with the integer part, a point and two decimals.  The digits
    of a float are printed without the limit of [str]. *)
Definition format_2f (x : t) : string :=
  let a := Z.abs (mant x) in
  let h := if 0 <=? expo x then a * 100 * 2 ^ expo x
           else half_even (a * 100) (- expo x) in
  (if mant x <? 0 then "-" else "")
    ++ decimal (h / 100) ++ "." ++ two_digits (h mod 100).

End Float64.

(** ** Regular expressions: the fragment of [re] used for codes *)

Module Re.

(** One-character classes. *)
Inductive atom : Type :=
| Digit.                                (* \d *)

Definition atom_matches (a : atom) (c : ascii) : bool :=
  match a with
  | Digit => isdecimal c
  end.

Inductive regex : Type :=
| WordBoundary                          (* \b *)
| Repeat (a : atom) (lo hi : nat)       (* a{lo,hi}, greedy *)
| Group (r : regex)                     (* ( r ), capture group 1 *)
| Seq (r1 r2 : regex).

(** [\w]: alphanumeric characters and the underscore. *)
Definition is_word (c : ascii) : bool := isalnum c || Ascii.eqb c "_".

Definition word_at (text : string) (i : nat) : bool :=
  match String.get i text with
  | Some c => is_word c
  | None => false
  end.

Definition word_before (text : string) (i : nat) : bool :=
  match i with
  | O => false
  | S j => word_at text j
  end.

(** [\b] holds at [i] when exactly one of the characters before and at
    [i] is a word character; the ends of the text count as non-word. *)
Definition at_boundary (text : string) (i : nat) : bool :=
  xorb (word_before text i) (word_at text i).

(** Number of consecutive characters from [i] that match [a], up to [hi]. *)
Fixpoint run (a : atom) (text : string) (i hi : nat) : nat :=
  match hi with
  | O => O
  | S hi' =>
      match String.get i text with
      | Some c => if atom_matches a c then S (run a text (S i) hi') else O
      | None => O
      end
  end.

(** Greedy choice of a repetition count: [n], then [n - 1], ... down to
    [lo], the first one for which the rest of the pattern matches. *)
Fixpoint first_down {A : Type} (n lo : nat) (k : nat -> option A) : option A :=
  if (n <? lo)%nat then None
  else match k n with
       | Some m => Some m
       | None =>
           match n with
           | O => None
           | S n' => first_down n' lo k
           end
       end.

(** Backtracking match of [r] at position [i]; [g] is the span of
    group 1 so far and [k] matches the rest of the pattern. *)
Fixpoint match_at {A : Type} (r : regex) (text : string) (i : nat)
         (g : option (nat * nat))
         (k : nat -> option (nat * nat) -> option A) : option A :=
  match r with
  | WordBoundary => if at_boundary text i then k i g else None
  | Repeat a lo hi =>
      first_down (run a text i hi) lo (fun n => k (i + n)%nat g)
  | Group r' => match_at r' text i g (fun j _ => k j (Some (i, j)))
  | Seq r1 r2 => match_at r1 text i g (fun j g' => match_at r2 text j g' k)
  end.

(** A match object: the text, the span matched and the span of group 1. *)
Record match_object : Type :=
  { m_string : string; m_span : nat * nat; m_group1 : option (nat * nat) }.

(** The scan of [re.search]: start positions [i], [i + 1], ... up to
    the end of the text ([remaining] positions after [i]). *)
Fixpoint search_from (r : regex) (text : string) (i remaining : nat)
  : option match_object :=
  match match_at r text i None
                 (fun j g => Some {| m_string := text; m_span := (i, j);
                                     m_group1 := g |}) with
  | Some m => Some m
  | None =>
      match remaining with
      | O => None
      | S remaining' => search_from r text (S i) remaining'
      end
  end.

(** [re.search(r, text)] *)
Definition search (r : regex) (text : string) : option match_object :=
  search_from r text 0 (String.length text).

(** [m.group(1)]: [None] when the group took no part in the match. *)
Definition group1 (m : match_object) : option string :=
  match m_group1 m with
  | Some (i, j) => Some (String.substring i (j - i) (m_string m))
  | None => None
  end.

End Re.

(** ** The helper functions *)

(** *** Commands *)

Definition parse_command (text : string) : list string :=
  if is_empty text || negb (startswith "/" text) then []
  else split text.

Definition get_command_args (text : string) : list string :=
  let parts := parse_command text in
  if 1 <? len parts then List.tl parts else [].

(** *** Message links *)

(** [if username:] on an [Optional[str]]: neither [None] nor empty. *)
Definition truthy (v : option string) : bool :=
  match v with
  | Some s => negb (is_empty s)
  | None => false
  end.

(** [v or default] on an [Optional[str]]. *)
Definition or_else (v : option string) (default : string) : string :=
  match v with
  | Some s => if is_empty s then default else s
  | None => default
  end.

Definition get_message_link (chat_id message_id : Z) (username : option string)
  : result string :=
  if truthy username then
    message <- str message_id ;;
    Return ("https://t.me/" ++ or_else username "" ++ "/" ++ message)
  else
    chat_id_str <- str chat_id ;;
    let chat_id_str :=
      if startswith "-100" chat_id_str then drop 4 chat_id_str
      else chat_id_str in
    message <- str message_id ;;
    Return ("https://t.me/c/" ++ chat_id_str ++ "/" ++ message).

(** The chat of a link: a numeric id or a public username. *)
Inductive chat_ref : Type :=
| ChatId (id : Z)
| Username (name : string).

(** [(chat_id_or_username, message_thread_id, message_id)] *)
Definition link_parts : Type := (option chat_ref * option Z * option Z)%type.

Definition no_parts : link_parts := (None, None, None).

(** The inner [try] of the public branch: a link with a thread id. *)
Definition public_with_thread (parts : list string)
  : result (option link_parts) :=
  username <- index parts (-3) ;;
  p2 <- index parts (-2) ;;
  thread_id <- int p2 ;;
  p1 <- index parts (-1) ;;
  message_id <- int p1 ;;
  Return (Some (Some (Username username), Some thread_id, Some message_id)).

(** The body of the outer [try]: [Some] is a [return] inside it, [None]
    is falling out of it. *)
Definition parse_link_body (link : string) (parts : list string)
  : result (option link_parts) :=
  if contains "/c/" link then
    if 7 <=? len parts then
      p3 <- index parts (-3) ;;
      channel_id <- int p3 ;;
      p2 <- index parts (-2) ;;
      thread_id <- int p2 ;;
      p1 <- index parts (-1) ;;
      message_id <- int p1 ;;
      channel <- str channel_id ;;
      chat <- int ("-100" ++ channel) ;;
      Return (Some (Some (ChatId chat), Some thread_id, Some message_id))
    else if 6 <=? len parts then
      p2 <- index parts (-2) ;;
      channel_id <- int p2 ;;
      p1 <- index parts (-1) ;;
      message_id <- int p1 ;;
      channel <- str channel_id ;;
      chat <- int ("-100" ++ channel) ;;
      Return (Some (Some (ChatId chat), None, Some message_id))
    else Return None
  else
    r <- (if 6 <=? len parts then
            try_except (public_with_thread parts) is_ValueError (Return None)
          else Return None) ;;
    match r with
    | Some t => Return (Some t)
    | None =>
        if 4 <=? len parts then
          username <- index parts (-2) ;;
          p1 <- index parts (-1) ;;
          message_id <- int p1 ;;
          Return (Some (Some (Username username), None, Some message_id))
        else Return None
    end.

(** The link as the parser reads it: stripped, and cut at the first "?". *)
Definition link_path (link : string) : result string :=
  let link := strip link in
  if contains "?" link then index (split_char "?" link) 0
  else Return link.

(** The segments between the slashes, trailing slashes removed. *)
Definition link_segments (link : string) : list string :=
  split_char "/" (rstrip_char "/" link).

Definition parse_message_link (link : string) : result link_parts :=
  link <- link_path link ;;
  let parts := link_segments link in
  r <- try_except (parse_link_body link parts)
                  is_ValueError_or_IndexError (Return None) ;;
  match r with
  | Some t => Return t
  | None => Return no_parts
  end.

(** *** Formatting *)

Definition is_nil {A : Type} (l : list A) : bool :=
  match l with
  | [] => true
  | _ :: _ => false
  end.

Definition format_time (seconds : Z) : result string :=
  if seconds <? 0 then Return "0s"
  else
    let hours := seconds / 3600 in
    let minutes := (seconds mod 3600) / 60 in
    let secs := seconds mod 60 in
    let parts : list string := [] in
    parts <- (if 0 <? hours then
                shown <- str hours ;; Return (append parts (shown ++ "h"))
              else Return parts) ;;
    parts <- (if 0 <? minutes then
                shown <- str minutes ;; Return (append parts (shown ++ "m"))
              else Return parts) ;;
    parts <- (if (0 <? secs) || is_nil parts then
                shown <- str secs ;; Return (append parts (shown ++ "s"))
              else Return parts) ;;
    Return (join " " parts).

Definition units : list string := ["B"; "KB"; "MB"; "GB"; "TB"].

(** The number of units after [unit_index]: what bounds the loop. *)
Definition units_left (unit_index : Z) : nat :=
  Z.to_nat (len units - 1 - unit_index).
Arguments units_left : simpl never.

(** A value together with the fact that the expression evaluates to it:
    lets a branch of the loop remember that its test held. *)
Definition inspect {A : Type} (a : A) : {b : A | a = b} := exist _ a eq_refl.

(** The [while] loop of [format_size]; it stops at the latest when
    [unit_index] reaches the last unit. *)
Equations? scale (size : Float64.t) (unit_index : Z) : Float64.t * Z
  by wf (units_left unit_index) lt :=
  scale size unit_index
    with inspect (Float64.ge_int size 1024
                  && (unit_index <? len units - 1)) => {
    | exist _ true continue :=
        scale (Float64.div_pow2 size 10) (unit_index + 1);
    | exist _ false _ := (size, unit_index) }.
Proof.
  apply andb_prop in continue as [_ more]. apply Z.ltb_lt in more.
  unfold units_left. change (len units) with 5. lia.
Qed.

Definition format_size (bytes_size : Z) : result string :=
  if bytes_size <? 0 then Return "0 B"
  else
    size <- Float64.of_int bytes_size ;;
    let '(size, unit_index) := scale size 0 in
    if unit_index =? 0 then
      whole <- str (Float64.to_int size) ;;
      unit <- index units unit_index ;;
      Return (whole ++ " " ++ unit)
    else
      let shown := Float64.format_2f size in
      unit <- index units unit_index ;;
      Return (shown ++ " " ++ unit).

(** *** Accessors *)

(** An attribute of a duck-typed object: missing ([hasattr] is false), or
    present with a value. *)
Inductive attribute (A : Type) : Type :=
| Missing
| Attr (v : A).
Arguments Missing {A}.
Arguments Attr {A} v.

(** What [get_display_name] looks at in its argument: the attributes
    [first_name], [last_name] and [title], each an [Optional[str]]. *)
Record entity : Type :=
  { first_name : attribute (option string);
    last_name : attribute (option string);
    title : attribute (option string) }.

(** The result of awaiting [get_display_name(user)]; the coroutine
    suspends nowhere. *)
Definition get_display_name (user : option entity) : string :=
  match user with
  | None => "Unknown"
  | Some user =>
      match first_name user with
      | Attr first =>
          let name := or_else first "" in
          let name :=
            match last_name user with
            | Attr last =>
                if truthy last then name ++ " " ++ or_else last "" else name
            | Missing => name
            end in
          or_else (Some (strip name)) "Unknown"
      | Missing =>
          match title user with
          | Attr t => or_else t "Unknown"
          | Missing => "Unknown"
          end
      end
  end.

(** The pattern [\b(\d{5,6})\b]. *)
Definition code_pattern : Re.regex :=
  Re.Seq Re.WordBoundary
         (Re.Seq (Re.Group (Re.Repeat Re.Digit 5 6)) Re.WordBoundary).

Definition extract_code_from_message (text : string) : option string :=
  if is_empty text then None
  else
    match Re.search code_pattern text with
    | Some m => Re.group1 m
    | None => None
    end.

(** The two content fields of a message. *)
Record message : Type :=
  { text : option string;
    caption : option string }.

Definition get_message_text (m : message) : string :=
  if truthy (text m) then or_else (text m) ""
  else if truthy (caption m) then or_else (caption m) ""
  else "".

(** * Specification-level definitions

    The notions in which the properties below are stated. *)

(** The characters of [s] before its first whitespace character. *)
Fixpoint first_word (s : string) : string :=
  match s with
  | EmptyString => EmptyString
  | String c s' => if isspace c then EmptyString else String c (first_word s')
  end.

(** Splitting on whitespace, said directly: skip the whitespace, take the
    word that follows, and go on after it; [fuel] bounds the number of
    words. *)
Fixpoint words (fuel : nat) (s : string) : list string :=
  match fuel with
  | O => []
  | S fuel' =>
      let s' := lstrip_with isspace s in
      if is_empty s' then []
      else first_word s'
             :: words fuel' (drop (String.length (first_word s')) s')
  end.

(** The number of decimal digits of an integer. *)
Definition num_digits (z : Z) : Z := count_digits (decimal z).

(** The components of a duration: one per unit whose value is not zero,
    larger units first, and "0s" when all are zero. *)
Definition time_components (hours minutes secs : Z) : list string :=
  let shown :=
    List.filter (fun '(v, _) => negb (v =? 0))
                [(hours, "h"); (minutes, "m"); (secs, "s")] in
  match shown with
  | [] => ["0s"]
  | _ :: _ => List.map (fun '(v, u) => decimal v ++ u) shown
  end.

(** Division by 1024 while the value is at least 1024 and a larger unit
    remains: [larger] counts the units above the current one.  Returns the
    final value and the number of divisions. *)
Fixpoint divide_while (larger : nat) (v : Float64.t) : Float64.t * nat :=
  match larger with
  | O => (v, O)
  | S larger' =>
      if Float64.ge_int v 1024 then
        let '(v', k) := divide_while larger' (Float64.div_pow2 v 10) in
        (v', S k)
      else (v, O)
  end.

(** The text of a size: the value as an integer when the unit is B, with
    two decimals otherwise, then a space and the unit. *)
Definition size_text (v : Float64.t) (k : nat) : string :=
  match k with
  | O => decimal (Float64.to_int v) ++ " B"
  | S _ => Float64.format_2f v ++ " " ++ nth k units ""
  end.

(** The byte counts from which [float] overflows: 2^1024 - 2^970 rounds
    up to 2^1024, which is no binary64 number. *)
Definition float_overflow : Z := 2 ^ 1024 - 2 ^ 970.

(** A name that counts for nothing: [None], empty, or whitespace only. *)
Fixpoint all_space (s : string) : bool :=
  match s with
  | EmptyString => true
  | String c s' => isspace c && all_space s'
  end.

Definition blank (v : option string) : bool :=
  match v with
  | Some s => all_space s
  | None => true
  end.

(** First and last name put together: the last name, when there is one,
    after a space. *)
Definition full_name (first last : option string) : string :=
  or_else first "" ++ (if truthy last then " " ++ or_else last "" else "").

(** The last name of a user-like value, [None] when it has no such field. *)
Definition last_name_of (u : entity) : option string :=
  match last_name u with
  | Attr last => last
  | Missing => None
  end.

(** A value with the name fields of a user, both unset, and a title: the
    shape of a channel in the host library. *)
Definition titled_with_name_fields : entity :=
  {| first_name := Attr None; last_name := Attr None;
     title := Attr (Some "News") |}.

(** A content field is present when it holds a non-empty string, which is
    what the code tests; otherwise it is absent. *)
Definition present (field : option string) (s : string) : Prop :=
  field = Some s /\ s <> "".

Definition absent (field : option string) : Prop :=
  field = None \/ field = Some "".

(** A decimal digit at position [i] of the text. *)
Definition digit_at (text : string) (i : nat) : bool :=
  match String.get i text with
  | Some c => isdecimal c
  | None => false
  end.

(** Digits at the [n] positions from [i]. *)
Fixpoint all_digits (text : string) (i n : nat) : bool :=
  match n with
  | O => true
  | S n' => digit_at text i && all_digits text (S i) n'
  end.

(** A code at position [i], of length [n]: 5 or 6 digits with no word
    character (letter, digit or underscore) right before or right after. *)
Definition code_at (text : string) (i n : nat) : bool :=
  ((n =? 5) || (n =? 6))%nat
  && all_digits text i n
  && negb (Re.word_before text i)
  && negb (Re.word_at text (i + n)).

(** * The remaining accessors *)

(** A user or a chat of the host library, of which only [id] is read. *)
Record peer : Type := { peer_id : Z }.

(** The fields of a message that tell where it comes from: [from_user]
    and [sender_chat] are objects or [None], [chat] is always there. *)
Record message_origin : Type :=
  { from_user : option peer;
    sender_chat : option peer;
    chat : peer }.

(** [if message.from_user:] holds for any object: the classes of the host
    library define no truth value of their own. *)
Definition get_sender_id (m : message_origin) : option Z :=
  match from_user m with
  | Some user => Some (peer_id user)
  | None =>
      match sender_chat m with
      | Some sender => Some (peer_id sender)
      | None => None
      end
  end.

Definition get_chat_id (m : message_origin) : Z := peer_id (chat m).

(** * Further specification-level definitions *)

(** Every character of [s] satisfies [p]. *)
Fixpoint all_chars (p : ascii -> bool) (s : string) : bool :=
  match s with
  | EmptyString => true
  | String c s' => p c && all_chars p s'
  end.

(** A character that is no slash, no question mark and no whitespace. *)
Definition plain_char (c : ascii) : bool :=
  negb (Ascii.eqb c "/") && negb (Ascii.eqb c "?") && negb (isspace c).

(** A plain segment: what a username or a number is in a link. *)
Definition plain (s : string) : bool := all_chars plain_char s.

(** The value of a decimal numeral read after the digits worth [acc]. *)
Fixpoint uint_value (acc : Z) (d : Decimal.uint) : Z :=
  match d with
  | Decimal.Nil => acc
  | Decimal.D0 d' => uint_value (10 * acc) d'
  | Decimal.D1 d' => uint_value (10 * acc + 1) d'
  | Decimal.D2 d' => uint_value (10 * acc + 2) d'
  | Decimal.D3 d' => uint_value (10 * acc + 3) d'
  | Decimal.D4 d' => uint_value (10 * acc + 4) d'
  | Decimal.D5 d' => uint_value (10 * acc + 5) d'
  | Decimal.D6 d' => uint_value (10 * acc + 6) d'
  | Decimal.D7 d' => uint_value (10 * acc + 7) d'
  | Decimal.D8 d' => uint_value (10 * acc + 8) d'
  | Decimal.D9 d' => uint_value (10 * acc + 9) d'
  end.

(** The text has no character [ch]. *)
Definition without (ch : ascii) (s : string) : bool :=
  all_chars (fun c => negb (Ascii.eqb c ch)) s.

(** The link with the given path segments. *)
Definition link_of (segments : list string) : string :=
  "https://t.me/" ++ join "/" segments.

(** The chat id of a private link: the channel number printed again
    after "-100" and read as an integer. *)
Definition prefixed (channel_id : Z) : result Z :=
  channel <- str channel_id ;; int ("-100" ++ channel).

(** The segment "c", which marks a private link. *)
Definition is_marker (segment : string) : bool := String.eqb segment "c".

(** A token: not empty, and without whitespace. *)
Definition is_token (s : string) : Prop :=
  s <> "" /\ all_chars (fun c => negb (isspace c)) s = true.

(** The unit of a size by its magnitude: B below 1024, KB below 1024^2,
    MB below 1024^3, GB below 1024^4, and TB from there on. *)
Definition unit_index_of (n : Z) : nat :=
  if n <? 2 ^ 10 then 0
  else if n <? 2 ^ 20 then 1
  else if n <? 2 ^ 30 then 2
  else if n <? 2 ^ 40 then 3
  else 4.

(** * Properties *)

(** ** Facts about the builtins *)

Section Builtins.

Lemma int_raises_only_ValueError (s : string) :
  (exists z, int s = Return z) \/ int s = Raise ValueError.
Proof.
  unfold int.
  destruct (rstrip_with int_space (lstrip_with int_space s)) as [|c r].
  - right. reflexivity.
  - destruct c as [[] [] [] [] [] [] [] []];
      (destruct (digits_value 0 false _); [destruct (_ <? _)|]); eauto.
Qed.

(** [str] gives the decimal text up to [max_str_digits] digits, and
    raises [ValueError] beyond. *)
Lemma str_cases (z : Z) :
  (num_digits z <= max_str_digits /\ str z = Return (decimal z)) \/
  (max_str_digits < num_digits z /\ str z = Raise ValueError).
Proof.
  unfold str, num_digits.
  destruct (Z.ltb_spec max_str_digits (count_digits (decimal z)));
    [right | left]; split; (assumption || reflexivity).
Qed.

Lemma str_returns (z : Z) :
  num_digits z <= max_str_digits -> str z = Return (decimal z).
Proof. intros H. destruct (str_cases z) as [[_ E] | [H' _]]; [exact E|lia]. Qed.

Lemma str_raises (z : Z) :
  max_str_digits < num_digits z -> str z = Raise ValueError.
Proof. intros H. destruct (str_cases z) as [[H' _] | [_ E]]; [lia|exact E]. Qed.

Lemma index_raises_only_IndexError {A : Type} (l : list A) (i : Z) :
  (exists a, index l i = Return a) \/ index l i = Raise IndexError.
Proof.
  unfold index.
  destruct ((_ <? 0) || (_ <=? _)); [now right|].
  destruct (nth_error l _); eauto.
Qed.

(** An index between [-len l] and [len l - 1] is served. *)
Lemma index_in_range {A : Type} (l : list A) (i : Z) :
  - len l <= i < len l -> exists a, index l i = Return a.
Proof.
  unfold index, len. intros Hi.
  set (n := Z.of_nat (List.length l)) in *.
  set (j := if i <? 0 then i + n else i).
  assert (Hj : 0 <= j < n) by (subst j; destruct (Z.ltb_spec i 0); lia).
  destruct (Z.ltb_spec j 0); [lia|].
  destruct (Z.leb_spec n j); [lia|]. simpl.
  destruct (nth_error l (Z.to_nat j)) eqn:E; [eauto|].
  apply nth_error_None in E. lia.
Qed.

Lemma split_char_not_nil (sep : ascii) (s : string) : split_char sep s <> [].
Proof.
  destruct s as [|c s]; simpl; [discriminate|].
  destruct (Ascii.eqb c sep); [discriminate|].
  destruct (split_char sep s); discriminate.
Qed.

Lemma link_head_of_split (sep : ascii) (s : string) :
  exists piece rest tail,
    split_char sep s = piece :: rest /\ s = piece ++ tail.
Proof.
  induction s as [|c s IH]; simpl.
  - exists "", [], "". split; reflexivity.
  - destruct IH as (piece & rest & tail & E & Hs).
    destruct (Ascii.eqb c sep).
    + exists "", (split_char sep s), (String c s). split; reflexivity.
    + rewrite E. exists (String c piece), rest, tail.
      split; [reflexivity|]. simpl. now rewrite <- Hs.
Qed.

Lemma lstrip_with_suffix (p : ascii -> bool) (s : string) :
  exists a, s = a ++ lstrip_with p s.
Proof.
  induction s as [|c s [a IH]]; simpl.
  - now exists "".
  - destruct (p c).
    + exists (String c a). simpl. now rewrite <- IH.
    + now exists "".
Qed.

Lemma rstrip_with_prefix (p : ascii -> bool) (s : string) :
  exists t, s = rstrip_with p s ++ t.
Proof.
  induction s as [|c s [t IH]]; simpl.
  - now exists "".
  - destruct (rstrip_with p s) as [|c' r] eqn:E.
    + destruct (p c).
      * now exists (String c s).
      * exists s. reflexivity.
    + exists t. simpl. simpl in IH. now rewrite <- IH.
Qed.

Lemma prefix_app (p a t : string) :
  String.prefix p a = true -> String.prefix p (a ++ t) = true.
Proof.
  revert a. induction p as [|c p IH]; intros [|d a]; simpl; try easy.
  - now destruct t.
  - destruct (ascii_dec c d); [apply IH|easy].
Qed.

Lemma contains_app_l (sub a t : string) :
  contains sub a = true -> contains sub (a ++ t) = true.
Proof.
  induction a as [|c a IH]; simpl.
  - rewrite orb_false_r. intros H.
    destruct sub; [|discriminate]. destruct t; reflexivity.
  - intros H. apply orb_true_iff in H as [H|H]; apply orb_true_iff.
    + left. apply (prefix_app sub (String c a) t H).
    + right. auto.
Qed.

Lemma contains_app_r (sub a t : string) :
  contains sub t = true -> contains sub (a ++ t) = true.
Proof.
  intros H. induction a as [|c a IH]; simpl; [exact H|].
  apply orb_true_iff. now right.
Qed.

End Builtins.

(** ** Integers and their text *)

Section Numerals.

Lemma digits_value_numeral (acc : Z) (after_digit : bool) (d : Decimal.uint) :
  digits_value acc after_digit (NilEmpty.string_of_uint d)
  = match d with
    | Decimal.Nil => if after_digit then Some acc else None
    | _ => Some (uint_value acc d)
    end.
Proof.
  revert acc after_digit.
  induction d as [|d IH|d IH|d IH|d IH|d IH|d IH|d IH|d IH|d IH|d IH];
    intros acc after_digit; [reflexivity|..];
    cbn [NilEmpty.string_of_uint digits_value uint_value];
    simpl isdecimal; cbv iota; rewrite IH;
    unfold digit_value; simpl (Z.of_N _ - 48);
    rewrite ?Z.add_0_r; now destruct d.
Qed.

Lemma uint_value_acc (d : Decimal.uint) (acc : positive) :
  uint_value (Z.pos acc) d = Z.pos (Pos.of_uint_acc d acc).
Proof.
  revert acc.
  induction d as [|d IH|d IH|d IH|d IH|d IH|d IH|d IH|d IH|d IH|d IH];
    intros acc; [reflexivity|..];
    cbn [uint_value Pos.of_uint_acc]; rewrite <- IH; f_equal; lia.
Qed.

Lemma uint_value_of_uint (d : Decimal.uint) :
  uint_value 0 d = Z.of_N (Pos.of_uint d).
Proof.
  induction d as [|d IH|d IH|d IH|d IH|d IH|d IH|d IH|d IH|d IH|d IH];
    [reflexivity|exact IH|..];
    cbn [uint_value Pos.of_uint]; simpl (10 * 0 + _);
    apply uint_value_acc.
Qed.

(** The digits of a positive number read back as that number. *)
Lemma digits_value_to_uint (p : positive) :
  digits_value 0 false (NilEmpty.string_of_uint (Pos.to_uint p))
  = Some (Z.pos p).
Proof.
  rewrite digits_value_numeral.
  pose proof (DecimalPos.Unsigned.to_uint_nonnil p) as Hnil.
  pose proof (DecimalPos.Unsigned.of_to p) as Hof.
  rewrite uint_value_of_uint, Hof.
  destruct (Pos.to_uint p); [easy|reflexivity..].
Qed.

(** The text of a numeral is made of decimal digits. *)
Lemma numeral_digits (d : Decimal.uint) :
  all_chars isdecimal (NilEmpty.string_of_uint d) = true.
Proof.
  induction d as [|d IH|d IH|d IH|d IH|d IH|d IH|d IH|d IH|d IH|d IH];
    [reflexivity|exact IH..].
Qed.

(** The text of an integer: an optional minus sign, then one digit at
    least. *)
Lemma decimal_shape (z : Z) :
  exists digits,
    digits <> "" /\ all_chars isdecimal digits = true /\
    decimal z = (if z <? 0 then "-" else "") ++ digits /\
    digits_value 0 false digits = Some (Z.abs z).
Proof.
  unfold decimal. destruct z as [|p|p]; cbn [Z.to_int NilZero.string_of_int].
  - exists "0". repeat split; discriminate.
  - exists (NilEmpty.string_of_uint (Pos.to_uint p)).
    pose proof (DecimalPos.Unsigned.to_uint_nonnil p) as Hnil.
    unfold NilZero.string_of_uint.
    split; [|split; [apply numeral_digits|split]].
    + destruct (Pos.to_uint p); [easy|discriminate..].
    + destruct (Pos.to_uint p); [easy|reflexivity..].
    + apply digits_value_to_uint.
  - exists (NilEmpty.string_of_uint (Pos.to_uint p)).
    pose proof (DecimalPos.Unsigned.to_uint_nonnil p) as Hnil.
    unfold NilZero.string_of_uint.
    split; [|split; [apply numeral_digits|split]].
    + destruct (Pos.to_uint p); [easy|discriminate..].
    + destruct (Pos.to_uint p); [easy|reflexivity..].
    + apply digits_value_to_uint.
Qed.

(** The digits of a numeral are counted one by one. *)
Lemma count_digits_numeral (d : Decimal.uint) :
  count_digits (NilEmpty.string_of_uint d) = Z.of_nat (Decimal.nb_digits d).
Proof.
  induction d as [|d IH|d IH|d IH|d IH|d IH|d IH|d IH|d IH|d IH|d IH];
    [reflexivity|..];
    cbn [NilEmpty.string_of_uint count_digits Decimal.nb_digits];
    rewrite IH, Nat2Z.inj_succ;
    match goal with |- context [isdecimal ?c] =>
      change (isdecimal c) with true
    end; lia.
Qed.

(** A numeral of [n] digits read after [acc] lies between [acc * 10^n]
    and [(acc + 1) * 10^n]. *)
Lemma uint_value_bounds (d : Decimal.uint) (acc : Z) :
  0 <= acc ->
  acc * 10 ^ Z.of_nat (Decimal.nb_digits d) <= uint_value acc d
  /\ uint_value acc d < (acc + 1) * 10 ^ Z.of_nat (Decimal.nb_digits d).
Proof.
  revert acc.
  induction d as [|d IH|d IH|d IH|d IH|d IH|d IH|d IH|d IH|d IH|d IH];
    intros acc Hacc;
    [cbn [uint_value Decimal.nb_digits]; change (Z.of_nat 0) with 0; lia|..];
    cbn [uint_value Decimal.nb_digits];
    rewrite Nat2Z.inj_succ, Z.pow_succ_r by lia;
    (pose proof (Z.pow_pos_nonneg 10 (Z.of_nat (Decimal.nb_digits d))
                                  ltac:(lia) ltac:(lia)) as Hp);
    match goal with
    | |- context [uint_value ?a d] => destruct (IH a ltac:(lia)) as [Hlo Hhi]
    end;
    set (P := 10 ^ Z.of_nat (Decimal.nb_digits d)) in *; clearbody P;
    split; nia.
Qed.

(** The numeral of a positive number does not start with a zero. *)
Lemma to_uint_leading (p : positive) :
  match Pos.to_uint p with
  | Decimal.Nil | Decimal.D0 _ => False
  | _ => True
  end.
Proof.
  pose proof (DecimalPos.Unsigned.to_of (Pos.to_uint p)) as Hnorm.
  rewrite DecimalPos.Unsigned.of_to in Hnorm. cbn [N.to_uint] in Hnorm.
  pose proof (DecimalPos.Unsigned.to_uint_nonzero p) as Hzero.
  pose proof (DecimalPos.Unsigned.to_uint_nonnil p) as Hnil.
  destruct (Pos.to_uint p) as [|d|d|d|d|d|d|d|d|d|d] eqn:E; try exact I.
  - now apply Hnil.
  - unfold Decimal.unorm in Hnorm. cbn [Decimal.nzhead] in Hnorm.
    destruct (Decimal.nzhead d) eqn:Ed.
    + apply Hzero. rewrite Hnorm. reflexivity.
    + exfalso. apply (DecimalFacts.nzhead_nonzero d d). congruence.
    + discriminate Hnorm.
    + discriminate Hnorm.
    + discriminate Hnorm.
    + discriminate Hnorm.
    + discriminate Hnorm.
    + discriminate Hnorm.
    + discriminate Hnorm.
    + discriminate Hnorm.
    + discriminate Hnorm.
Qed.

(** A positive number of [n] digits lies between [10^(n-1)] and [10^n]. *)
Lemma to_uint_bounds (p : positive) :
  let n := Z.of_nat (Decimal.nb_digits (Pos.to_uint p)) in
  0 < n /\ 10 ^ (n - 1) <= Z.pos p < 10 ^ n.
Proof.
  intros n.
  pose proof (to_uint_leading p) as Hlead.
  pose proof (uint_value_of_uint (Pos.to_uint p)) as Hval.
  rewrite DecimalPos.Unsigned.of_to in Hval. cbn [Z.of_N] in Hval.
  pose proof (uint_value_bounds (Pos.to_uint p) 0 ltac:(lia)) as [_ Hhi].
  fold n in Hhi. rewrite Hval in Hhi.
  assert (Hn : 0 < n /\ 10 ^ (n - 1) <= Z.pos p); [|lia].
  subst n. rewrite <- Hval.
  destruct (Pos.to_uint p) as [|d|d|d|d|d|d|d|d|d|d]; try contradiction;
    cbn [uint_value Decimal.nb_digits]; rewrite Nat2Z.inj_succ;
    (split; [lia|]);
    replace (Z.succ (Z.of_nat (Decimal.nb_digits d)) - 1)
      with (Z.of_nat (Decimal.nb_digits d)) by lia;
    match goal with
    | |- _ <= uint_value ?a d =>
        pose proof (uint_value_bounds d a ltac:(lia)) as [Hlo _]
    end;
    (pose proof (Z.pow_pos_nonneg 10 (Z.of_nat (Decimal.nb_digits d))
                                  ltac:(lia) ltac:(lia)) as Hp);
    set (P := 10 ^ Z.of_nat (Decimal.nb_digits d)) in *; clearbody P; nia.
Qed.

(** The number of digits of an integer is that of its absolute value:
    the length of the numeral, 1 for zero. *)
Lemma num_digits_numeral (z : Z) :
  num_digits z = match z with
                 | 0 => 1
                 | Z.pos p | Z.neg p =>
                     Z.of_nat (Decimal.nb_digits (Pos.to_uint p))
                 end.
Proof.
  unfold num_digits, decimal.
  destruct z as [|p|p]; cbn [Z.to_int NilZero.string_of_int];
    [reflexivity|..];
    pose proof (DecimalPos.Unsigned.to_uint_nonnil p) as Hnil;
    unfold NilZero.string_of_uint;
    rewrite <- count_digits_numeral;
    destruct (Pos.to_uint p); (contradiction || reflexivity).
Qed.

(** An integer has at most [k] digits exactly when its absolute value is
    below [10^k]. *)
Lemma num_digits_bound (z k : Z) :
  0 < k -> (num_digits z <= k <-> Z.abs z < 10 ^ k).
Proof.
  intros Hk. rewrite num_digits_numeral.
  assert (Hpos : forall p,
             Z.of_nat (Decimal.nb_digits (Pos.to_uint p)) <= k
             <-> Z.pos p < 10 ^ k).
  { intros p. destruct (to_uint_bounds p) as (Hn & Hlo & Hhi).
    set (n := Z.of_nat (Decimal.nb_digits (Pos.to_uint p))) in *.
    clearbody n. split; intros H.
    - apply Z.lt_le_trans with (10 ^ n); [exact Hhi|].
      apply Z.pow_le_mono_r; lia.
    - destruct (Z.le_gt_cases n k) as [|Hgt]; [assumption|exfalso].
      assert (10 ^ k <= 10 ^ (n - 1)) by (apply Z.pow_le_mono_r; lia).
      lia. }
  destruct z as [|p|p]; cbn [Z.abs].
  - split; intros _; [apply Z.pow_pos_nonneg; lia | lia].
  - apply Hpos.
  - apply Hpos.
Qed.

(** Numbers below 10000 in absolute value are far from the limit. *)
Lemma str_small (z : Z) :
  Z.abs z < 10000 -> str z = Return (decimal z).
Proof.
  intros H. apply str_returns.
  apply Z.le_trans with 4; [|discriminate].
  apply num_digits_bound; [lia|exact H].
Qed.

End Numerals.

(** ** Message links *)

Section Links.

Lemma string_app_assoc (a b c : string) : (a ++ b) ++ c = a ++ b ++ c.
Proof. induction a as [|x a IH]; simpl; [reflexivity|now rewrite IH]. Qed.

(** The parser reads a piece of the link it is given, whatever the link. *)
Lemma link_path_returns (link : string) :
  exists path before after,
    link_path link = Return path /\ link = before ++ path ++ after.
Proof.
  unfold link_path, strip.
  destruct (lstrip_with_suffix isspace link) as [before Hl].
  destruct (rstrip_with_prefix isspace (lstrip_with isspace link))
    as [after Hr].
  set (s := rstrip_with isspace (lstrip_with isspace link)) in *.
  destruct (contains "?" s).
  - destruct (link_head_of_split "?" s) as (piece & rest & tail & E & Hs).
    exists piece, before, (tail ++ after). rewrite E. split; [reflexivity|].
    rewrite <- (string_app_assoc piece tail after), <- Hs, <- Hr. exact Hl.
  - exists s, before, after. split; [reflexivity|]. now rewrite <- Hr.
Qed.

(** A marker missing from the link is missing from what the parser reads. *)
Lemma link_path_without (sub link path : string) :
  contains sub link = false ->
  link_path link = Return path ->
  contains sub path = false.
Proof.
  intros Hno Hp.
  destruct (link_path_returns link) as (p & before & after & Hp' & Hl).
  rewrite Hp in Hp'. injection Hp' as <-.
  destruct (contains sub path) eqn:E; [|reflexivity].
  rewrite Hl in Hno. rewrite contains_app_r in Hno; [discriminate|].
  now apply contains_app_l.
Qed.

Lemma parse_message_link_on_path (link path : string) :
  link_path link = Return path ->
  parse_message_link link =
    (r <- try_except (parse_link_body path (link_segments path))
                     is_ValueError_or_IndexError (Return None) ;;
     match r with
     | Some t => Return t
     | None => Return no_parts
     end).
Proof. intros H. unfold parse_message_link. now rewrite H. Qed.

Ltac run_index :=
  match goal with
  | |- context [index ?l ?i] =>
      let E := fresh "Eindex" in
      first [ destruct (index_in_range l i) as [? E]; [lia|]
            | destruct (index_raises_only_IndexError l i) as [[? E] | E] ];
      rewrite E; simpl
  end.

Ltac run_int :=
  match goal with
  | |- context [int ?s] =>
      let E := fresh "Eint" in
      destruct (int_raises_only_ValueError s) as [[? E] | E];
      rewrite E; simpl
  end.

Ltac run_str :=
  match goal with
  | |- context [str ?z] =>
      let E := fresh "Estr" in
      destruct (str_cases z) as [[_ E] | [_ E]];
      rewrite E; simpl
  end.

Ltac run_body := repeat (first [run_index | run_int | run_str]).

(** Two readings of the same segment agree. *)
Ltac same_reads :=
  repeat match goal with
         | H : Return _ = Return _ |- _ => injection H as H; try subst
         | H : Raise _ = Return _ |- _ => discriminate H
         | H : Return _ = Raise _ |- _ => discriminate H
         | H1 : int ?s = _, H2 : int ?s = _ |- _ => rewrite H1 in H2
         end.

Ltac settle :=
  eexists; split; [reflexivity|];
  repeat split; intros;
  try match goal with H : _ \/ _ |- _ => destruct H end;
  try reflexivity; try lia; try congruence;
  try (same_reads; reflexivity);
  eauto 10.

(** What the outer [try] returns: it never raises; a success carries a
    chat and the message id read from the last segment; the listed
    failures fall out of it; and without "/c/" an integer last segment
    after three others at least always gives a result. *)
Lemma parse_link_body_cases (link : string) (parts : list string) :
  exists r,
    try_except (parse_link_body link parts)
               is_ValueError_or_IndexError (Return None) = Return r /\
    match r with
    | None => True
    | Some t =>
        exists chat thread last message_id,
          t = (Some chat, thread, Some message_id) /\
          index parts (-1) = Return last /\ int last = Return message_id
    end /\
    (len parts < 4 -> r = None) /\
    (forall last, index parts (-1) = Return last ->
                  int last = Raise ValueError -> r = None) /\
    (contains "/c/" link = true -> len parts < 6 -> r = None) /\
    (contains "/c/" link = true ->
     forall seg, index parts (-2) = Return seg ->
                 int seg = Raise ValueError -> r = None) /\
    (contains "/c/" link = true -> 7 <= len parts ->
     forall seg, index parts (-3) = Return seg ->
                 int seg = Raise ValueError -> r = None) /\
    (contains "/c/" link = false -> 4 <= len parts ->
     forall user last message_id,
       index parts (-2) = Return user -> index parts (-1) = Return last ->
       int last = Return message_id ->
       len parts < 6 \/ int user = Raise ValueError ->
       r = Some (Some (Username user), None, Some message_id)) /\
    (contains "/c/" link = false -> 6 <= len parts ->
     forall name seg last thread_id message_id,
       index parts (-3) = Return name -> index parts (-2) = Return seg ->
       index parts (-1) = Return last ->
       int seg = Return thread_id -> int last = Return message_id ->
       r = Some (Some (Username name), Some thread_id, Some message_id)).
Proof.
  unfold parse_link_body, public_with_thread.
  destruct (contains "/c/" link).
  - destruct (Z.leb_spec 7 (len parts)).
    + run_body; settle.
    + destruct (Z.leb_spec 6 (len parts)); run_body; settle.
  - destruct (Z.leb_spec 6 (len parts)).
    + destruct (Z.leb_spec 4 (len parts)); [|lia].
      run_body; settle.
    + destruct (Z.leb_spec 4 (len parts)); simpl; run_body; settle.
Qed.

(** C1.  Private-link round trip: the link built for chat
    -1001234567890 and message 55 without a username is
    "https://t.me/c/1234567890/55", and parsing it gives back
    (-1001234567890, None, 55). *)
Theorem private_link_round_trip :
  get_message_link (-1001234567890) 55 None
  = Return "https://t.me/c/1234567890/55"
  /\ (link <- get_message_link (-1001234567890) 55 None ;;
      parse_message_link link)
     = Return (Some (ChatId (-1001234567890)), None, Some 55).
Proof. split; vm_compute; reflexivity. Qed.

(** C2.  Public-link round trip: whatever the chat id, the link built
    for username "foo" and message 9 is "https://t.me/foo/9", and parsing
    it gives ("foo", None, 9). *)
Theorem public_link_round_trip (chat_id : Z) :
  get_message_link chat_id 9 (Some "foo") = Return "https://t.me/foo/9"
  /\ (link <- get_message_link chat_id 9 (Some "foo") ;;
      parse_message_link link)
     = Return (Some (Username "foo"), None, Some 9).
Proof. split; reflexivity. Qed.

(** The public branch on the segments of a link without "/c/": when the
    thread segment is no integer, the inner [try] swallows the error and
    the branch without thread answers. *)
Lemma public_fallthrough (path : string) (parts : list string)
      (user last : string) (message_id : Z) :
  contains "/c/" path = false ->
  6 <= len parts ->
  index parts (-2) = Return user ->
  index parts (-1) = Return last ->
  int user = Raise ValueError ->
  int last = Return message_id ->
  try_except (public_with_thread parts) is_ValueError (Return None)
    = Return None
  /\ parse_link_body path parts
     = Return (Some (Some (Username user), None, Some message_id)).
Proof.
  intros Hc Hlen Hu Hl Hiu Hil.
  assert (Hin : try_except (public_with_thread parts) is_ValueError
                           (Return None) = Return None).
  { unfold public_with_thread.
    destruct (index_in_range parts (-3)) as [first ->]; [lia|].
    simpl. rewrite Hu. simpl. rewrite Hiu. reflexivity. }
  split; [exact Hin|].
  unfold parse_link_body. rewrite Hc.
  destruct (Z.leb_spec 6 (len parts)); [|lia].
  rewrite Hin. simpl.
  destruct (Z.leb_spec 4 (len parts)); [|lia].
  rewrite Hu. simpl. rewrite Hl. simpl. rewrite Hil. reflexivity.
Qed.

(** C3.  A link without "/c/" that splits into at least 6 segments, with
    a second-from-last segment that is no integer and a last segment that
    is one: the failure of the thread id is swallowed by the branch with
    thread, and the parser answers from the branch without thread, with
    the second-from-last segment as username, no thread, and the last
    segment as message id. *)
Theorem public_thread_failure_falls_through
        (link path user last : string) (message_id : Z) :
  contains "/c/" link = false ->
  link_path link = Return path ->
  6 <= len (link_segments path) ->
  index (link_segments path) (-2) = Return user ->
  index (link_segments path) (-1) = Return last ->
  int user = Raise ValueError ->
  int last = Return message_id ->
  try_except (public_with_thread (link_segments path)) is_ValueError
             (Return None) = Return None
  /\ parse_message_link link
     = Return (Some (Username user), None, Some message_id).
Proof.
  intros Hc Hp Hlen Hu Hl Hiu Hil.
  pose proof (link_path_without "/c/" link path Hc Hp) as Hc'.
  destruct (public_fallthrough path (link_segments path) user last
                               message_id Hc' Hlen Hu Hl Hiu Hil) as [Hin Hb].
  split; [exact Hin|].
  rewrite (parse_message_link_on_path link path Hp), Hb. reflexivity.
Qed.

Lemma public_thread_failure_falls_through_witness :
  parse_message_link "  https://t.me/s/news/latest/12/?single  "
  = Return (Some (Username "latest"), None, Some 12).
Proof.
  apply (public_thread_failure_falls_through
           "  https://t.me/s/news/latest/12/?single  "
           "https://t.me/s/news/latest/12/" "latest" "12" 12);
    try reflexivity.
  vm_compute. discriminate.
Defined.

(** C4, as the code has it.  The parser never raises: every link has a
    result.  The result is all or nothing: either the empty triple, or a
    chat together with the message id read from the last segment.  It is
    the empty triple when there are fewer than 4 segments, when the last
    segment is no integer, and, for a link with "/c/", when there are
    fewer than 6 segments or when the channel or thread segment is no
    integer.  Without "/c/", 4 segments at least and an integer last
    segment always give a chat, whatever the host and the other
    segments: the third-from-last segment with the thread id when there
    are 6 segments at least and the second-from-last segment is an
    integer, and otherwise the second-from-last segment with no thread. *)
Theorem parse_message_link_never_raises (link : string) :
  exists path t,
    link_path link = Return path /\
    parse_message_link link = Return t /\
    (t = no_parts \/
     exists chat thread last message_id,
       t = (Some chat, thread, Some message_id) /\
       index (link_segments path) (-1) = Return last /\
       int last = Return message_id) /\
    (len (link_segments path) < 4 -> t = no_parts) /\
    (forall last, index (link_segments path) (-1) = Return last ->
                  int last = Raise ValueError -> t = no_parts) /\
    (contains "/c/" path = true -> len (link_segments path) < 6 ->
     t = no_parts) /\
    (contains "/c/" path = true ->
     forall seg, index (link_segments path) (-2) = Return seg ->
                 int seg = Raise ValueError -> t = no_parts) /\
    (contains "/c/" path = true -> 7 <= len (link_segments path) ->
     forall seg, index (link_segments path) (-3) = Return seg ->
                 int seg = Raise ValueError -> t = no_parts) /\
    (contains "/c/" path = false -> 4 <= len (link_segments path) ->
     forall user last message_id,
       index (link_segments path) (-2) = Return user ->
       index (link_segments path) (-1) = Return last ->
       int last = Return message_id ->
       len (link_segments path) < 6 \/ int user = Raise ValueError ->
       t = (Some (Username user), None, Some message_id)) /\
    (contains "/c/" path = false -> 6 <= len (link_segments path) ->
     forall name seg last thread_id message_id,
       index (link_segments path) (-3) = Return name ->
       index (link_segments path) (-2) = Return seg ->
       index (link_segments path) (-1) = Return last ->
       int seg = Return thread_id -> int last = Return message_id ->
       t = (Some (Username name), Some thread_id, Some message_id)).
Proof.
  destruct (link_path_returns link) as (path & _ & _ & Hp & _).
  destruct (parse_link_body_cases path (link_segments path))
    as (r & Hr & Hshape & Hfew & Hlast & Hfew6 & Hchan & Hthread
        & Hpublic & Hpublic_thread).
  exists path, (match r with Some t => t | None => no_parts end).
  split; [exact Hp|]. split.
  { rewrite (parse_message_link_on_path link path Hp), Hr.
    destruct r; reflexivity. }
  split.
  { destruct r as [t|]; [right; exact Hshape | left; reflexivity]. }
  split; [intros; now rewrite Hfew|].
  split; [intros last ? ?; now rewrite (Hlast last)|].
  split; [intros; now rewrite Hfew6|].
  split; [intros H seg ? ?; now rewrite (Hchan H seg)|].
  split; [intros H H0 seg ? ?; now rewrite (Hthread H H0 seg)|].
  split.
  - intros Hc Hlen user last message_id Hu Hl Hil Hthen.
    now rewrite (Hpublic Hc Hlen user last message_id Hu Hl Hil Hthen).
  - intros Hc Hlen name seg last thread_id message_id Hn Hs Hl His Hil.
    now rewrite (Hpublic_thread Hc Hlen name seg last thread_id message_id
                                Hn Hs Hl His Hil).
Qed.

Lemma parse_message_link_never_raises_witness :
  parse_message_link "https://t.me/c/12x/7" = Return no_parts
  /\ parse_message_link "t.me/9" = Return no_parts
  /\ parse_message_link "https://example.org/whatever/12"
     = Return (Some (Username "whatever"), None, Some 12).
Proof.
  split; [|split].
  - destruct (parse_message_link_never_raises "https://t.me/c/12x/7")
      as (path & t & Hp & Ht & _ & _ & _ & _ & Hchan & _).
    rewrite Ht. f_equal.
    injection Hp as <-.
    apply (Hchan eq_refl "12x"); reflexivity.
  - destruct (parse_message_link_never_raises "t.me/9")
      as (path & t & Hp & Ht & _ & Hfew & _).
    rewrite Ht. f_equal.
    injection Hp as <-.
    apply Hfew. vm_compute. reflexivity.
  - destruct (parse_message_link_never_raises
                "https://example.org/whatever/12")
      as (path & t & Hp & Ht & _ & _ & _ & _ & _ & _ & Hpublic & _).
    rewrite Ht. f_equal.
    injection Hp as <-.
    apply (Hpublic eq_refl) with (last := "12");
      [vm_compute; discriminate | reflexivity | reflexivity | reflexivity|].
    left. vm_compute. reflexivity.
Defined.

(** Where the claim as first stated fails: a segment that is no integer
    where a thread id is read, or a host that is not Telegram's, is no
    failure for the parser, and the result is not the empty triple. *)
Lemma parse_message_link_answers_unrecognised :
  parse_message_link "https://t.me/foo/abc/12"
  = Return (Some (Username "abc"), None, Some 12)
  /\ int "abc" = Raise ValueError
  /\ parse_message_link "ftp://example.org/whatever/12"
     = Return (Some (Username "whatever"), None, Some 12)
  /\ ~ (forall link path seg,
           link_path link = Return path ->
           index (link_segments path) (-2) = Return seg ->
           int seg = Raise ValueError ->
           parse_message_link link = Return no_parts).
Proof.
  split; [reflexivity|]. split; [reflexivity|]. split; [reflexivity|].
  intros H.
  specialize (H "https://t.me/foo/abc/12" "https://t.me/foo/abc/12" "abc"
                eq_refl eq_refl eq_refl).
  discriminate H.
Qed.

End Links.

(** ** Commands *)

Section Commands.

Lemma string_app_empty_r (s : string) : s ++ "" = s.
Proof. induction s as [|c s IH]; simpl; [reflexivity|now rewrite IH]. Qed.

Lemma string_of_list_ascii_snoc (l : list ascii) (c : ascii) (w : string) :
  string_of_list_ascii (l ++ [c]) ++ w
  = string_of_list_ascii l ++ String c w.
Proof. induction l as [|x l IH]; simpl; [reflexivity|now rewrite IH]. Qed.

Lemma startswith_slash (text : string) :
  startswith "/" text = true <-> exists rest, text = String "/" rest.
Proof.
  unfold startswith. split.
  - destruct text as [|c rest]; [discriminate|].
    cbn [String.prefix].
    destruct (ascii_dec "/" c) as [<-|]; [eauto|discriminate].
  - intros [rest ->]. simpl. now destruct rest.
Qed.

(** One round of the scan with a token under way: the token is completed
    by the word that starts the rest, and the scan goes on after it. *)
Lemma split_ws_from_token (tok : list ascii) (s : string) :
  tok <> [] ->
  split_ws_from tok s
  = (string_of_list_ascii (rev tok) ++ first_word s)
      :: split (drop (String.length (first_word s)) s).
Proof.
  revert tok. induction s as [|c s IH]; intros tok Htok.
  - simpl. destruct tok; [easy|]. simpl flush.
    now rewrite string_app_empty_r.
  - simpl. destruct (isspace c) eqn:Hc.
    + destruct tok; [easy|]. simpl flush. simpl.
      rewrite string_app_empty_r. unfold split. simpl. now rewrite Hc.
    + rewrite IH by discriminate. simpl.
      now rewrite string_of_list_ascii_snoc.
Qed.

Lemma split_skips_space (s : string) :
  split s = split (lstrip_with isspace s).
Proof.
  unfold split. induction s as [|c s IH]; simpl; [reflexivity|].
  destruct (isspace c) eqn:Hc; [exact IH|].
  simpl. now rewrite Hc.
Qed.

(** [split] on a text that starts with a word. *)
Lemma split_word (c : ascii) (s : string) :
  isspace c = false ->
  split (String c s)
  = first_word (String c s)
      :: split (drop (String.length (first_word (String c s))) (String c s)).
Proof.
  intros Hc. unfold split at 1. simpl. rewrite Hc.
  now rewrite split_ws_from_token by discriminate.
Qed.

Lemma drop_length (n : nat) (s : string) :
  (String.length (drop n s) <= String.length s)%nat.
Proof.
  revert s. induction n as [|n IH]; intros [|c s]; simpl; auto.
Qed.

Lemma lstrip_with_length (p : ascii -> bool) (s : string) :
  (String.length (lstrip_with p s) <= String.length s)%nat.
Proof.
  induction s as [|c s IH]; simpl; [auto|].
  destruct (p c); simpl; lia.
Qed.

(** [split] is the splitting on whitespace: with fuel for one word per
    character, it is [words]. *)
Lemma split_words (fuel : nat) (s : string) :
  (String.length s < fuel)%nat -> split s = words fuel s.
Proof.
  revert s. induction fuel as [|fuel IH]; intros s Hlen; [lia|].
  simpl. rewrite split_skips_space.
  pose proof (lstrip_with_length isspace s) as Hl.
  destruct (lstrip_with isspace s) as [|c s'] eqn:Es; [reflexivity|].
  assert (Hc : isspace c = false).
  { clear - Es. induction s as [|d s IH]; simpl in Es; [discriminate|].
    destruct (isspace d) eqn:Hd; [auto|]. now injection Es as -> _. }
  rewrite (split_word c s' Hc). cbn [is_empty]. f_equal.
  apply IH.
  pose proof (drop_length (String.length (first_word s')) s') as Hd.
  simpl first_word. rewrite Hc. simpl in *. lia.
Qed.

(** C5.  [parse_command] returns the empty list for a text that is
    empty or does not start with "/"; otherwise it returns the text
    split on whitespace, and its first token is the command: the word
    that starts the text, slash included. *)
Theorem parse_command_spec (text : string) :
  (text = "" \/ startswith "/" text = false -> parse_command text = []) /\
  (text <> "" -> startswith "/" text = true ->
   parse_command text = split text /\
   split text = words (S (String.length text)) text /\
   exists args,
     parse_command text = first_word text :: args /\
     startswith "/" (first_word text) = true).
Proof.
  unfold parse_command. split.
  - intros [-> | H]; [reflexivity|].
    rewrite H. now rewrite orb_true_r.
  - intros _ H. pose proof H as H'.
    apply startswith_slash in H' as [rest ->].
    rewrite H. cbn [is_empty negb orb]. split; [reflexivity|].
    split; [apply split_words; lia|].
    rewrite (split_word "/" rest eq_refl). eexists. split; [reflexivity|].
    change (first_word (String "/" rest)) with (String "/" (first_word rest)).
    apply startswith_slash. eauto.
Qed.

Lemma parse_command_spec_witness :
  parse_command "/start  now please" = split "/start  now please"
  /\ parse_command "hello /start" = [].
Proof.
  split.
  - apply (parse_command_spec "/start  now please");
      [discriminate | reflexivity].
  - apply (parse_command_spec "hello /start"). right. reflexivity.
Defined.

End Commands.

(** ** Formatting *)

Section Durations.

(** The text of a minute or second count is never over the limit. *)
Lemma str_below_60 (v : Z) : 0 <= v < 60 -> str v = Return (decimal v).
Proof. intros H. apply str_small. lia. Qed.

(** The hour count has at most [max_str_digits] digits exactly below
    [3600 * 10^max_str_digits] seconds. *)
Lemma hours_within_limit (seconds : Z) :
  0 <= seconds ->
  (num_digits (seconds / 3600) <= max_str_digits
   <-> seconds < 3600 * 10 ^ max_str_digits).
Proof.
  intros H.
  rewrite (num_digits_bound (seconds / 3600) max_str_digits)
    by reflexivity.
  assert (Hh : 0 <= seconds / 3600) by (apply Z.div_pos; lia).
  rewrite (Z.abs_eq _ Hh).
  set (limit := 10 ^ max_str_digits). clearbody limit.
  split; intros Hlt.
  - pose proof (Z.div_mod seconds 3600 ltac:(lia)) as Hd.
    pose proof (Z.mod_pos_bound seconds 3600 ltac:(lia)) as Hm. lia.
  - apply Z.div_lt_upper_bound; lia.
Qed.

(** C6, as the code has it.  [format_time] returns "0s" for a negative
    duration.  Otherwise it splits the seconds into hours, minutes below
    60 and seconds below 60.  When the hour count has at most 4300
    digits, that is below [3600 * 10^4300] seconds, it joins with single
    spaces one component per unit that is not zero, larger units first,
    "0s" standing for a zero duration; from there on the hours are not
    printed and [ValueError] is raised.  In particular
    [format_time 0 = "0s"], [format_time 3661 = "1h 1m 1s"] and
    [format_time (-5) = "0s"]. *)
Theorem format_time_spec (seconds : Z) :
  (seconds < 0 -> format_time seconds = Return "0s") /\
  (0 <= seconds ->
   let hours := seconds / 3600 in
   let minutes := seconds mod 3600 / 60 in
   let secs := seconds mod 60 in
   seconds = 3600 * hours + 60 * minutes + secs /\
   0 <= hours /\ 0 <= minutes < 60 /\ 0 <= secs < 60 /\
   (num_digits hours <= max_str_digits
    <-> seconds < 3600 * 10 ^ max_str_digits) /\
   (seconds < 3600 * 10 ^ max_str_digits ->
    format_time seconds
    = Return (join " " (time_components hours minutes secs))) /\
   (3600 * 10 ^ max_str_digits <= seconds ->
    format_time seconds = Raise ValueError)) /\
  format_time 0 = Return "0s" /\
  format_time 3661 = Return "1h 1m 1s" /\
  format_time (-5) = Return "0s".
Proof.
  split; [|split; [|repeat split; reflexivity]].
  - intros H. unfold format_time.
    destruct (Z.ltb_spec seconds 0); [reflexivity|lia].
  - intros H hours minutes secs.
    assert (Hh : 0 <= hours)
      by (subst hours; Z.to_euclidean_division_equations; lia).
    assert (Hm : 0 <= minutes < 60)
      by (subst minutes; Z.to_euclidean_division_equations; lia).
    assert (Hs : 0 <= secs < 60)
      by (subst secs; Z.to_euclidean_division_equations; lia).
    pose proof (hours_within_limit seconds H) as Hlimit.
    fold hours in Hlimit.
    split; [|split; [|split; [|split; [|split; [|split]]]]];
      try lia; try exact Hlimit.
    { subst hours minutes secs. Z.to_euclidean_division_equations. lia. }
    + intros Hlt. apply Hlimit in Hlt.
      unfold format_time, time_components.
      destruct (Z.ltb_spec seconds 0); [lia|].
      fold hours minutes secs. cbn [List.filter].
      rewrite (str_returns hours Hlt).
      rewrite (str_below_60 minutes Hm), (str_below_60 secs Hs).
      destruct (Z.ltb_spec 0 hours), (Z.eqb_spec hours 0); try lia;
        destruct (Z.ltb_spec 0 minutes), (Z.eqb_spec minutes 0); try lia;
        destruct (Z.ltb_spec 0 secs), (Z.eqb_spec secs 0); try lia;
        try reflexivity.
      replace secs with 0 by lia. reflexivity.
    + intros Hge.
      assert (Hover : max_str_digits < num_digits hours).
      { destruct (Z.le_gt_cases (num_digits hours) max_str_digits) as [Hle|];
          [|lia].
        apply Hlimit in Hle. lia. }
      assert (Hpos : 0 < hours).
      { destruct (Z.eq_dec hours 0) as [E|]; [|lia].
        rewrite E in Hover. vm_compute in Hover. discriminate Hover. }
      unfold format_time.
      destruct (Z.ltb_spec seconds 0); [lia|].
      fold hours. destruct (Z.ltb_spec 0 hours); [|lia].
      rewrite (str_raises hours Hover). reflexivity.
Qed.

Lemma format_time_spec_witness :
  format_time 7384 = Return (join " " (time_components 2 3 4))
  /\ format_time (-1) = Return "0s".
Proof.
  split.
  - destruct (format_time_spec 7384) as (_ & Hpos & _).
    destruct Hpos as (_ & _ & _ & _ & _ & Hfmt & _); [lia|].
    apply Hfmt. vm_compute. reflexivity.
  - destruct (format_time_spec (-1)) as (Hneg & _).
    apply Hneg. lia.
Defined.

(** Where the claim as first stated fails: the hours of
    [3600 * 10^4300] seconds have 4301 digits, which [f"{hours}h"] does
    not print. *)
Lemma format_time_digit_limit :
  format_time (3600 * 10 ^ 4300) = Raise ValueError
  /\ format_time (3600 * 10 ^ 4300 - 1)
     = Return (decimal (10 ^ 4300 - 1) ++ "h 59m 59s")
  /\ ~ (forall seconds, exists s, format_time seconds = Return s).
Proof.
  assert (Hraise : format_time (3600 * 10 ^ 4300) = Raise ValueError)
    by (vm_compute; reflexivity).
  split; [exact Hraise|]. split; [vm_compute; reflexivity|].
  intros H. destruct (H (3600 * 10 ^ 4300)) as [s Hs].
  rewrite Hraise in Hs. discriminate Hs.
Qed.

End Durations.

Section Sizes.

(** The loop, one test at a time. *)
Lemma scale_step (size : Float64.t) (unit_index : Z) :
  scale size unit_index =
  if Float64.ge_int size 1024 && (unit_index <? len units - 1)
  then scale (Float64.div_pow2 size 10) (unit_index + 1)
  else (size, unit_index).
Proof.
  funelim (scale size unit_index).
  - rewrite continue. reflexivity.
  - rewrite e. reflexivity.
Qed.

(** The loop divides while the value is at least 1024 and a larger unit
    remains. *)
Lemma scale_divide_while (larger : nat) (v : Float64.t) (unit_index : Z) :
  unit_index = len units - 1 - Z.of_nat larger ->
  scale v unit_index =
  let '(v', k) := divide_while larger v in (v', unit_index + Z.of_nat k).
Proof.
  revert v unit_index.
  induction larger as [|larger IH]; intros v unit_index Hi;
    rewrite scale_step.
  - destruct (Z.ltb_spec unit_index (len units - 1)); [lia|].
    rewrite andb_false_r. simpl. f_equal. lia.
  - destruct (Z.ltb_spec unit_index (len units - 1)); [|lia].
    rewrite andb_true_r. cbn [divide_while].
    destruct (Float64.ge_int v 1024); [|simpl; f_equal; lia].
    rewrite (IH _ (unit_index + 1)) by lia.
    destruct (divide_while larger _) as [v' k]. f_equal. lia.
Qed.

Lemma divide_while_count (larger : nat) (v : Float64.t) :
  (snd (divide_while larger v) <= larger)%nat.
Proof.
  revert v. induction larger as [|larger IH]; intros v; simpl; [lia|].
  destruct (Float64.ge_int v 1024); simpl; [|lia].
  specialize (IH (Float64.div_pow2 v 10)).
  destruct (divide_while larger _); simpl in *. lia.
Qed.

(** No division takes place exactly when the value is below 1024. *)
Lemma divide_while_none (larger : nat) (v : Float64.t) :
  snd (divide_while (S larger) v) = O <-> Float64.ge_int v 1024 = false.
Proof.
  simpl. destruct (Float64.ge_int v 1024); simpl.
  - destruct (divide_while larger _). simpl. split; discriminate.
  - split; reflexivity.
Qed.

(** As long as the exponent stays in range, the divisions are exact:
    [k] of them lower the exponent by [10 * k]. *)
Lemma divide_while_exact (larger : nat) (m e : Z) :
  -1074 <= e - 10 * Z.of_nat larger ->
  fst (divide_while larger (Float64.mk m e))
  = Float64.mk
      m (e - 10 * Z.of_nat (snd (divide_while larger (Float64.mk m e)))).
Proof.
  revert e. induction larger as [|larger IH]; intros e He;
    cbn [divide_while].
  - cbn [fst snd]. f_equal. lia.
  - destruct (Float64.ge_int _ 1024); cbn [fst snd]; [|f_equal; lia].
    unfold Float64.div_pow2. cbn [Float64.mant Float64.expo].
    destruct (Z.leb_spec (-1074) (e - 10)); [|lia].
    specialize (IH (e - 10) ltac:(lia)).
    destruct (divide_while larger _) as [v' k]. cbn [fst snd] in *.
    rewrite IH. f_equal. lia.
Qed.

(** Rounding to nearest moves a quotient up by one at most. *)
Lemma half_even_near (n k : Z) :
  Float64.half_even n k = n / 2 ^ k \/ Float64.half_even n k = n / 2 ^ k + 1.
Proof.
  unfold Float64.half_even.
  destruct (_ <? _); [now left|].
  destruct (_ <? _); [now right|].
  destruct (Z.even _); [now left|now right].
Qed.

(** Rounding up happens from the half on only. *)
Lemma half_even_up (n k : Z) :
  Float64.half_even n k = n / 2 ^ k + 1 -> 2 ^ (k - 1) <= n mod 2 ^ k.
Proof.
  unfold Float64.half_even.
  destruct (Z.ltb_spec (n mod 2 ^ k) (2 ^ (k - 1))); [lia|].
  intros _. assumption.
Qed.

(** [float(n)] for a byte count below the overflow: the count itself up
    to 53 bits, and beyond a significand of 53 bits with a positive
    exponent. *)
Lemma of_int_cases (n : Z) :
  0 <= n < float_overflow ->
  (n < 2 ^ 53 /\ Float64.of_int n = Return (Float64.mk n 0)) \/
  (exists m e, Float64.of_int n = Return (Float64.mk m e) /\
               2 ^ 52 <= m < 2 ^ 53 /\ 0 < e <= 971 /\ 2 ^ 53 <= n).
Proof.
  intros [Hn Hover]. unfold Float64.of_int.
  rewrite (Z.abs_eq n Hn).
  set (e := Z.log2 n - 52).
  destruct (Z.leb_spec e 0) as [He|He].
  - left. split; [|reflexivity].
    destruct (Z.eq_dec n 0) as [->|Hn0]; [reflexivity|].
    apply Z.log2_lt_pow2; lia.
  - right.
    assert (Hpos : 0 < n).
    { destruct (Z.eq_dec n 0) as [->|]; [|lia]. subst e. simpl in He. lia. }
    destruct (Z.log2_spec n Hpos) as [Hlo Hhi].
    replace (Z.log2 n) with (52 + e) in Hlo by (subst e; lia).
    replace (Z.succ (Z.log2 n)) with (53 + e) in Hhi by (subst e; lia).
    rewrite Z.pow_add_r in Hlo, Hhi by lia.
    assert (He971 : e <= 971).
    { assert (Z.log2 n < 1024); [|subst e; lia].
      apply Z.log2_lt_pow2; [exact Hpos|].
      unfold float_overflow in Hover.
      assert (0 < 2 ^ 970) by (apply Z.pow_pos_nonneg; lia). lia. }
    clearbody e.
    assert (Hp : 0 < 2 ^ e) by (apply Z.pow_pos_nonneg; lia).
    assert (Hhalf : 2 ^ e = 2 * 2 ^ (e - 1)).
    { rewrite <- (Z.pow_succ_r 2 (e - 1)) by lia. f_equal. lia. }
    pose proof (Z.div_mod n (2 ^ e) ltac:(lia)) as Hdiv.
    pose proof (Z.mod_pos_bound n (2 ^ e) Hp) as Hmod.
    assert (Hq : 2 ^ 52 <= n / 2 ^ e < 2 ^ 53).
    { split.
      - apply Z.div_le_lower_bound; lia.
      - apply Z.div_lt_upper_bound; lia. }
    assert (Hbig : 2 ^ 53 <= n).
    { assert (0 < 2 ^ (e - 1)) by (apply Z.pow_pos_nonneg; lia).
      change (2 ^ 53) with (2 ^ 52 * 2). nia. }
    assert (Hsgn : Z.sgn n = 1) by (apply Z.sgn_pos; exact Hpos).
    rewrite Hsgn.
    destruct (Z.eqb_spec (Float64.half_even n e) (2 ^ 53)) as [Hm|Hm].
    + assert (Hup : Float64.half_even n e = n / 2 ^ e + 1)
        by (destruct (half_even_near n e); lia).
      assert (Hlast : n / 2 ^ e = 2 ^ 53 - 1) by lia.
      apply half_even_up in Hup.
      assert (He970 : e <= 970).
      { destruct (Z.eq_dec e 971) as [E|]; [|lia]. exfalso.
        subst e. unfold float_overflow in Hover.
        change (2 ^ 1024) with (2 ^ 53 * 2 ^ 971) in Hover.
        change (971 - 1) with 970 in *.
        set (p := 2 ^ 971) in *. set (h := 2 ^ 970) in *.
        clearbody p h. rewrite Hlast in Hdiv. lia. }
      destruct (Z.ltb_spec 971 (e + 1)); [lia|].
      exists (2 ^ 52), (e + 1). split; [reflexivity|]. lia.
    + destruct (Z.ltb_spec 971 e); [lia|].
      exists (Float64.half_even n e), e. split; [f_equal; f_equal; lia|].
      destruct (half_even_near n e); lia.
Qed.

Lemma decimal_digit (d : Z) :
  0 <= d < 10 -> exists c, decimal d = String c "" /\ isdecimal c = true.
Proof.
  intros H.
  assert (E : d = 0 \/ d = 1 \/ d = 2 \/ d = 3 \/ d = 4 \/ d = 5 \/ d = 6
              \/ d = 7 \/ d = 8 \/ d = 9) by lia.
  repeat (destruct E as [->|E]; [eexists; split; reflexivity|]).
  subst d. eexists; split; reflexivity.
Qed.

(** [.2f] prints exactly two decimals after the point. *)
Lemma format_2f_two_decimals (v : Float64.t) :
  0 <= Float64.mant v ->
  exists whole c1 c2,
    Float64.format_2f v = decimal whole ++ "." ++ String c1 (String c2 "") /\
    isdecimal c1 = true /\ isdecimal c2 = true.
Proof.
  intros Hm. unfold Float64.format_2f, Float64.two_digits.
  destruct (Z.ltb_spec (Float64.mant v) 0); [lia|].
  set (h := if 0 <=? Float64.expo v then _ else _). clearbody h.
  destruct (decimal_digit (h mod 100 / 10)) as (c1 & E1 & H1);
    [Z.to_euclidean_division_equations; lia|].
  destruct (decimal_digit ((h mod 100) mod 10)) as (c2 & E2 & H2);
    [Z.to_euclidean_division_equations; lia|].
  exists (h / 100), c1, c2. rewrite E1, E2. repeat split; assumption.
Qed.

(** [float(n)] and the first test of the loop, for a byte count below
    the overflow. *)
Lemma of_int_summary (n : Z) :
  0 <= n < float_overflow ->
  exists m e,
    Float64.of_int n = Return (Float64.mk m e) /\
    0 <= m /\ 0 <= e <= 971 /\
    (n < 2 ^ 53 -> m = n /\ e = 0) /\
    (Float64.ge_int (Float64.mk m e) 1024 = false ->
     m = n /\ e = 0 /\ n < 1024).
Proof.
  intros H.
  destruct (of_int_cases n H) as [[Hs Hv] | (m & e & Hv & Hm & He & Hb)].
  - exists n, 0. split; [exact Hv|].
    split; [lia|]. split; [lia|]. split; [auto|].
    unfold Float64.ge_int. cbn [Float64.mant Float64.expo].
    intros Hge. apply Z.leb_gt in Hge. lia.
  - exists m, e. split; [exact Hv|].
    split; [lia|]. split; [lia|]. split; [lia|].
    unfold Float64.ge_int. cbn [Float64.mant Float64.expo].
    intros Hge. exfalso.
    destruct (Z.leb_spec 0 e); [|lia].
    apply Z.leb_gt in Hge.
    assert (2 <= 2 ^ e)
      by (change 2 with (2 ^ 1) at 1; apply Z.pow_le_mono_r; lia).
    assert (2 ^ 52 * 2 <= m * 2 ^ e) by nia.
    change (2 ^ 52 * 2) with (2 ^ 53) in *. lia.
Qed.

(** [float(n)] from the overflow on: the rounded value would need an
    exponent above that of the largest binary64 number. *)
Lemma of_int_overflow (n : Z) :
  float_overflow <= n -> Float64.of_int n = Raise OverflowError.
Proof.
  intros Hn. unfold float_overflow in Hn.
  assert (H970 : 0 < 2 ^ 970) by (apply Z.pow_pos_nonneg; lia).
  change (2 ^ 1024) with (2 ^ 54 * 2 ^ 970) in Hn.
  assert (Hbig : 2 ^ 1023 <= n).
  { change (2 ^ 1023) with (2 ^ 53 * 2 ^ 970).
    set (h := 2 ^ 970) in *. clearbody h. lia. }
  assert (Hpos : 0 < n).
  { apply Z.lt_le_trans with (2 ^ 1023); [|exact Hbig].
    apply Z.pow_pos_nonneg; lia. }
  assert (Hlog : 1023 <= Z.log2 n) by (apply Z.log2_le_pow2; assumption).
  unfold Float64.of_int. rewrite (Z.abs_eq n) by lia.
  destruct (Z.log2_spec n Hpos) as [Hlo Hhi].
  set (e := Z.log2 n - 52) in *.
  replace (Z.log2 n) with (52 + e) in Hlo by (subst e; lia).
  replace (Z.succ (Z.log2 n)) with (53 + e) in Hhi by (subst e; lia).
  assert (He : 971 <= e) by (subst e; lia).
  clearbody e. clear Hlog.
  rewrite Z.pow_add_r in Hlo, Hhi by lia.
  destruct (Z.leb_spec e 0); [lia|].
  assert (Hp : 0 < 2 ^ e) by (apply Z.pow_pos_nonneg; lia).
  assert (Hq : 2 ^ 52 <= n / 2 ^ e < 2 ^ 53).
  { split.
    - apply Z.div_le_lower_bound; lia.
    - apply Z.div_lt_upper_bound; lia. }
  destruct (Z.eqb_spec (Float64.half_even n e) (2 ^ 53)) as [Hm|Hm].
  - destruct (Z.ltb_spec 971 (e + 1)); [reflexivity|lia].
  - destruct (Z.ltb_spec 971 e); [reflexivity|exfalso].
    assert (E : e = 971) by lia. subst e. apply Hm.
    pose proof (Z.div_mod n (2 ^ 971) ltac:(lia)) as Hdiv.
    pose proof (Z.mod_pos_bound n (2 ^ 971) Hp) as Hmod.
    assert (Hlast : n / 2 ^ 971 = 2 ^ 53 - 1).
    { assert (2 ^ 53 - 1 <= n / 2 ^ 971); [|lia].
      apply Z.div_le_lower_bound; [exact Hp|].
      change (2 ^ 971) with (2 * 2 ^ 970).
      set (h := 2 ^ 970) in *. clearbody h. lia. }
    unfold Float64.half_even. change (971 - 1) with 970.
    rewrite Hlast in *. change (Z.even (2 ^ 53 - 1)) with false.
    assert (Hrem : 2 ^ 970 <= n mod 2 ^ 971).
    { change (2 ^ 971) with (2 * 2 ^ 970) in *.
      set (h := 2 ^ 970) in *. set (r := n mod (2 * h)) in *.
      clearbody r h. lia. }
    destruct (Z.ltb_spec (n mod 2 ^ 971) (2 ^ 970)); [lia|].
    destruct (Z.ltb_spec (2 ^ 970) (n mod 2 ^ 971)); reflexivity.
Qed.

(** The text of a count below 1024 is never over the limit. *)
Lemma str_below_1024 (n : Z) : 0 <= n < 1024 -> str n = Return (decimal n).
Proof. intros H. apply str_small. lia. Qed.

(** C7, as the code has it.  [format_size] returns "0 B" for a negative
    count.  For a count that converts to a float (any count below
    2^1024 - 2^970), it divides the float by 1024 while the value is at
    least 1024 and a larger unit among B/KB/MB/GB/TB remains, then prints
    the value as an integer when the unit is B (the count itself, which
    is then below 1024) and with exactly two decimals otherwise, followed
    by a space and the unit; up to 2^53 the value printed is the count
    divided by 1024 to the number of divisions, exactly.  In particular
    [format_size 500 = "500 B"], [format_size 1536 = "1.50 KB"] and
    [format_size (-1) = "0 B"].  From 2^1024 - 2^970 on,
    [float(bytes_size)] raises [OverflowError] and nothing is returned. *)
Theorem format_size_spec (bytes_size : Z) :
  (bytes_size < 0 -> format_size bytes_size = Return "0 B") /\
  (0 <= bytes_size < float_overflow ->
   exists v v' k,
     Float64.of_int bytes_size = Return v /\
     divide_while 4 v = (v', k) /\
     format_size bytes_size = Return (size_text v' k) /\
     (k = O ->
      bytes_size < 1024 /\ size_text v' k = decimal bytes_size ++ " B") /\
     (k <> O ->
      exists whole c1 c2,
        size_text v' k
        = (decimal whole ++ "." ++ String c1 (String c2 ""))
            ++ " " ++ nth k units "" /\
        isdecimal c1 = true /\ isdecimal c2 = true) /\
     (bytes_size < 2 ^ 53 ->
      v' = Float64.mk bytes_size (-10 * Z.of_nat k))) /\
  (float_overflow <= bytes_size ->
   format_size bytes_size = Raise OverflowError) /\
  format_size 500 = Return "500 B" /\
  format_size 1536 = Return "1.50 KB" /\
  format_size (-1) = Return "0 B".
Proof.
  split; [|split; [|split; [|repeat split; reflexivity]]].
  - intros H. unfold format_size.
    destruct (Z.ltb_spec bytes_size 0); [reflexivity|lia].
  - intros H.
    destruct (of_int_summary bytes_size H)
      as (m & e & Hv & Hm & He & Hsmall & Hbelow).
    destruct (divide_while 4 (Float64.mk m e)) as [v' k] eqn:Hdw.
    pose proof (divide_while_count 4 (Float64.mk m e)) as Hk.
    pose proof (divide_while_exact 4 m e ltac:(lia)) as Hexact.
    pose proof (divide_while_none 3 (Float64.mk m e)) as Hnone.
    rewrite Hdw in Hk, Hexact, Hnone. cbn [fst snd] in Hk, Hexact, Hnone.
    exists (Float64.mk m e), v', k.
    split; [exact Hv|]. split; [exact Hdw|]. split; [|split; [|split]].
    + unfold format_size.
      destruct (Z.ltb_spec bytes_size 0); [lia|].
      rewrite Hv. cbn [bind].
      rewrite (scale_divide_while 4 (Float64.mk m e) 0 eq_refl), Hdw.
      destruct k as [|[|[|[|[|k]]]]]; try reflexivity; [|lia].
      destruct (Hbelow (proj1 Hnone eq_refl)) as (-> & -> & Hlt).
      rewrite Hexact. unfold size_text, Float64.to_int.
      cbn [Float64.mant Float64.expo].
      change (0 - 10 * Z.of_nat 0) with 0. change (0 <=? 0) with true.
      change (0 + Z.of_nat 0 =? 0) with true. cbv iota.
      rewrite Z.pow_0_r, Z.mul_1_r, str_below_1024 by lia. reflexivity.
    + intros ->. destruct (Hbelow (proj1 Hnone eq_refl)) as (-> & -> & Hlt).
      split; [exact Hlt|]. rewrite Hexact.
      unfold size_text, Float64.to_int. cbn [Float64.mant Float64.expo].
      change (0 - 10 * Z.of_nat 0) with 0. simpl (0 <=? 0).
      cbv iota. now rewrite Z.pow_0_r, Z.mul_1_r.
    + intros Hk0.
      destruct (format_2f_two_decimals v') as (whole & c1 & c2 & E & H1 & H2).
      { rewrite Hexact. exact Hm. }
      exists whole, c1, c2. repeat split; try assumption.
      destruct k; [easy|]. unfold size_text. now rewrite E.
    + intros Hs. destruct (Hsmall Hs) as [-> ->].
      rewrite Hexact. f_equal. lia.
  - intros H. unfold format_size.
    destruct (Z.ltb_spec bytes_size 0) as [Hneg|_].
    + unfold float_overflow in H.
      change (2 ^ 1024) with (2 ^ 54 * 2 ^ 970) in H.
      assert (0 < 2 ^ 970) by (apply Z.pow_pos_nonneg; lia).
      set (h := 2 ^ 970) in *. clearbody h. lia.
    + rewrite (of_int_overflow bytes_size H). reflexivity.
Qed.

Lemma format_size_spec_witness :
  format_size 5000000 = Return "4.77 MB"
  /\ format_size (-3) = Return "0 B".
Proof.
  split.
  - destruct (format_size_spec 5000000) as (_ & Hpos & _).
    destruct Hpos as (v & v' & k & Hv & Hdw & Hfmt & _).
    { unfold float_overflow. split; [lia|reflexivity]. }
    rewrite Hfmt. injection Hv as <-. injection Hdw as <- <-.
    reflexivity.
  - destruct (format_size_spec (-3)) as (Hneg & _).
    apply Hneg. lia.
Defined.

(** Where the claim as first stated fails: from 2^1024 - 2^970 on,
    [float(bytes_size)] raises and nothing is printed. *)
Lemma format_size_overflow :
  format_size float_overflow = Raise OverflowError
  /\ format_size (2 ^ 1024) = Raise OverflowError
  /\ ~ (forall bytes_size, exists s, format_size bytes_size = Return s).
Proof.
  assert (Hraise : format_size (2 ^ 1024) = Raise OverflowError)
    by (vm_compute; reflexivity).
  split; [vm_compute; reflexivity|]. split; [exact Hraise|].
  intros H. destruct (H (2 ^ 1024)) as [s Hs].
  rewrite Hraise in Hs. discriminate Hs.
Qed.

End Sizes.

(** ** Codes *)

Section Codes.

Lemma digit_is_word (text : string) (i : nat) :
  digit_at text i = true -> Re.word_at text i = true.
Proof.
  unfold digit_at, Re.word_at, Re.is_word, isalnum, isdecimal.
  destruct (String.get i text); [|discriminate].
  intros ->. reflexivity.
Qed.

Lemma get_beyond (s : string) (i : nat) :
  (String.length s <= i)%nat -> String.get i s = None.
Proof.
  revert i. induction s as [|c s IH]; intros i H; [reflexivity|].
  destruct i as [|i]; simpl in *; [lia|]. apply IH. lia.
Qed.

Lemma all_digits_at (text : string) (i n j : nat) :
  all_digits text i n = true -> (j < n)%nat -> digit_at text (i + j) = true.
Proof.
  revert i j. induction n as [|n IH]; intros i j H Hj; [lia|].
  simpl in H. apply andb_prop in H as [H0 H].
  destruct j as [|j]; [now rewrite Nat.add_0_r|].
  rewrite Nat.add_succ_r. apply (IH (S i) j H). lia.
Qed.

Lemma all_digits_shorter (text : string) (i n m : nat) :
  all_digits text i n = true -> (m <= n)%nat -> all_digits text i m = true.
Proof.
  revert i n. induction m as [|m IH]; intros i n H Hm; [reflexivity|].
  destruct n as [|n]; [lia|]. simpl in *.
  apply andb_prop in H as [-> H]. apply (IH (S i) n H). lia.
Qed.

Lemma run_all_digits (text : string) (i hi : nat) :
  all_digits text i (Re.run Re.Digit text i hi) = true.
Proof.
  revert i. induction hi as [|hi IH]; intros i; simpl; [reflexivity|].
  unfold digit_at.
  destruct (String.get i text) as [c|] eqn:E; [|reflexivity].
  destruct (isdecimal c) eqn:D; [|reflexivity].
  simpl. unfold digit_at. rewrite E, D. apply IH.
Qed.

Lemma run_stops (text : string) (i hi : nat) :
  (Re.run Re.Digit text i hi < hi)%nat ->
  digit_at text (i + Re.run Re.Digit text i hi) = false.
Proof.
  revert i. induction hi as [|hi IH]; intros i; simpl; [lia|].
  unfold digit_at at 1.
  destruct (String.get i text) as [c|] eqn:E.
  - destruct (isdecimal c) eqn:D.
    + intros H. rewrite Nat.add_succ_r. apply (IH (S i)). lia.
    + intros _. rewrite Nat.add_0_r. unfold digit_at. now rewrite E.
  - intros _. rewrite Nat.add_0_r. unfold digit_at. now rewrite E.
Qed.

Lemma run_at_most (text : string) (i hi : nat) :
  (Re.run Re.Digit text i hi <= hi)%nat.
Proof.
  revert i. induction hi as [|hi IH]; intros i; simpl; [lia|].
  destruct (String.get i text) as [c|]; [|lia].
  destruct (isdecimal c); [|lia]. specialize (IH (S i)). lia.
Qed.

(** Digits at [n] positions from [i], exactly when the run reaches [n]. *)
Lemma all_digits_run (text : string) (i hi n : nat) :
  (n <= hi)%nat ->
  all_digits text i n = true <-> (n <= Re.run Re.Digit text i hi)%nat.
Proof.
  intros Hn. split.
  - intros H.
    destruct (Nat.le_gt_cases n (Re.run Re.Digit text i hi)) as [|Hlt];
      [assumption|].
    pose proof (run_stops text i hi ltac:(lia)) as Hstop.
    rewrite (all_digits_at text i n _ H Hlt) in Hstop. discriminate.
  - intros H.
    apply (all_digits_shorter text i _ n (run_all_digits text i hi) H).
Qed.

Lemma boundary_before_digit (text : string) (j : nat) :
  digit_at text j = true ->
  Re.at_boundary text j = negb (Re.word_before text j).
Proof.
  intros H. unfold Re.at_boundary. rewrite (digit_is_word text j H).
  now destruct (Re.word_before text j).
Qed.

Lemma boundary_after_digit (text : string) (j : nat) :
  digit_at text j = true ->
  Re.at_boundary text (S j) = negb (Re.word_at text (S j)).
Proof.
  intros H. unfold Re.at_boundary. cbn [Re.word_before].
  rewrite (digit_is_word text j H). reflexivity.
Qed.

(** The pattern at one position: it matches there exactly when a code
    of length 6, or else one of length 5, is at that position. *)
Lemma match_code_at {A : Type} (text : string) (i : nat)
      (k : nat -> option (nat * nat) -> option A) :
  Re.match_at code_pattern text i None k =
  if code_at text i 6 then k (i + 6)%nat (Some (i, (i + 6)%nat))
  else if code_at text i 5 then k (i + 5)%nat (Some (i, (i + 5)%nat))
  else None.
Proof.
  unfold code_pattern. cbn [Re.match_at].
  pose proof (run_at_most text i 6) as Hr.
  pose proof (run_all_digits text i 6) as Hall.
  pose proof (run_stops text i 6) as Hstop.
  pose proof (all_digits_run text i 6 5 ltac:(lia)) as H5.
  pose proof (all_digits_run text i 6 6 ltac:(lia)) as H6.
  unfold code_at. cbn [Nat.eqb orb andb].
  set (r := Re.run Re.Digit text i 6) in *. clearbody r.
  destruct (Nat.le_gt_cases 5 r) as [Hge|Hlt].
  - (* at least five digits *)
    pose proof (all_digits_at text i r 0 Hall ltac:(lia)) as D0.
    rewrite Nat.add_0_r in D0.
    pose proof (all_digits_at text i r 4 Hall ltac:(lia)) as D4.
    rewrite (boundary_before_digit text i D0).
    rewrite (proj2 H5 Hge). cbn [andb].
    pose proof (boundary_after_digit text (i + 4) D4) as B5.
    rewrite <- (Nat.add_succ_r i 4) in B5.
    destruct (Nat.eq_dec r 5) as [->|Hne].
    + (* exactly five *)
      assert (E6 : all_digits text i 6 = false).
      { destruct (all_digits text i 6); [|reflexivity].
        pose proof (proj1 H6 eq_refl). lia. }
      rewrite E6. cbn [andb Re.first_down Nat.ltb Nat.leb].
      rewrite B5.
      destruct (Re.word_before text i), (Re.word_at text (i + 5));
        cbn [negb andb]; try reflexivity.
      now destruct (k _ _).
    + (* six *)
      assert (r = 6%nat) as -> by lia.
      pose proof (all_digits_at text i 6 5 Hall ltac:(lia)) as D5.
      rewrite (proj2 H6 (le_n 6)). cbn [andb Re.first_down Nat.ltb Nat.leb].
      rewrite B5, (digit_is_word text _ D5). cbn [negb andb].
      pose proof (boundary_after_digit text (i + 5) D5) as B6.
      rewrite <- (Nat.add_succ_r i 5) in B6. rewrite B6.
      destruct (Re.word_before text i), (Re.word_at text (i + 6));
        cbn [negb andb]; try reflexivity.
      now destruct (k _ _).
  - (* fewer than five digits *)
    assert (E5 : all_digits text i 5 = false).
    { destruct (all_digits text i 5); [|reflexivity].
      pose proof (proj1 H5 eq_refl). lia. }
    assert (E6 : all_digits text i 6 = false).
    { destruct (all_digits text i 6); [|reflexivity].
      pose proof (proj1 H6 eq_refl). lia. }
    rewrite E5, E6. cbn [andb].
    assert (Hnone : forall f : nat -> option A, Re.first_down r 5 f = None).
    { intros f. destruct r as [|[|[|[|[|r]]]]]; try reflexivity. lia. }
    rewrite Hnone. now destruct (Re.at_boundary text i).
Qed.

Lemma code_at_lengths (text : string) (i n : nat) :
  code_at text i n = true -> n = 5%nat \/ n = 6%nat.
Proof.
  unfold code_at. intros H.
  repeat (apply andb_prop in H as [H _]).
  apply orb_prop in H as [H|H]; apply Nat.eqb_eq in H; auto.
Qed.

(** At one position there is one code at most. *)
Lemma code_at_unique (text : string) (i n m : nat) :
  code_at text i n = true -> code_at text i m = true -> n = m.
Proof.
  intros Hn Hm.
  assert (Hex : forall a b, code_at text i a = true ->
                            code_at text i b = true ->
                            a = 5%nat -> b = 6%nat -> False).
  { intros a b Ha Hb -> ->. unfold code_at in Ha, Hb.
    cbn [Nat.eqb orb andb] in *.
    apply andb_prop in Ha as [_ Ha].
    apply andb_prop in Hb as [Hb _]. apply andb_prop in Hb as [Hb _].
    pose proof (all_digits_at text i 6 5 Hb ltac:(lia)) as D.
    rewrite (digit_is_word text _ D) in Ha. discriminate. }
  destruct (code_at_lengths text i n Hn), (code_at_lengths text i m Hm);
    subst; try reflexivity; exfalso; eauto.
Qed.

(** No code starts after the end of the text. *)
Lemma code_at_beyond (text : string) (i n : nat) :
  (String.length text < i)%nat -> code_at text i n = false.
Proof.
  intros H. destruct (code_at text i n) eqn:E; [|reflexivity].
  destruct (code_at_lengths text i n E) as [-> | ->];
    unfold code_at in E; cbn [Nat.eqb orb andb all_digits] in E;
    unfold digit_at in E; rewrite (get_beyond text i) in E by lia;
    discriminate.
Qed.

(** The scan from position [i]: it stops at the first position with a
    code and captures that code, or finds none up to [i + remaining]. *)
Lemma search_from_spec (text : string) (remaining i : nat) :
  match Re.search_from code_pattern text i remaining with
  | Some m =>
      exists j n,
        code_at text j n = true /\
        (forall j' n', (i <= j' < j)%nat -> code_at text j' n' = false) /\
        Re.group1 m = Some (String.substring j n text)
  | None =>
      forall j n, (i <= j <= i + remaining)%nat -> code_at text j n = false
  end.
Proof.
  revert i. induction remaining as [|remaining IH]; intros i;
    cbn [Re.search_from]; rewrite match_code_at.
  - destruct (code_at text i 6) eqn:E6; [|destruct (code_at text i 5) eqn:E5].
    + exists i, 6%nat. split; [exact E6|]. split; [intros; lia|].
      unfold Re.group1. cbn. now rewrite Nat.add_comm, Nat.add_sub.
    + exists i, 5%nat. split; [exact E5|]. split; [intros; lia|].
      unfold Re.group1. cbn. now rewrite Nat.add_comm, Nat.add_sub.
    + intros j n Hj. assert (j = i) as -> by lia.
      destruct (code_at text i n) eqn:E; [|reflexivity].
      destruct (code_at_lengths text i n E) as [-> | ->]; congruence.
  - assert (Hhere : code_at text i 6 = false -> code_at text i 5 = false ->
                    forall n, code_at text i n = false).
    { intros E6 E5 n. destruct (code_at text i n) eqn:E; [|reflexivity].
      destruct (code_at_lengths text i n E) as [-> | ->]; congruence. }
    destruct (code_at text i 6) eqn:E6; [|destruct (code_at text i 5) eqn:E5].
    + exists i, 6%nat. split; [exact E6|]. split; [intros; lia|].
      unfold Re.group1. cbn. now rewrite Nat.add_comm, Nat.add_sub.
    + exists i, 5%nat. split; [exact E5|]. split; [intros; lia|].
      unfold Re.group1. cbn. now rewrite Nat.add_comm, Nat.add_sub.
    + specialize (IH (S i)).
      destruct (Re.search_from code_pattern text (S i) remaining) as [m|].
      * destruct IH as (j & n & Hc & Hleft & Hg).
        exists j, n. split; [exact Hc|]. split; [|exact Hg].
        intros j' n' Hj'. destruct (Nat.eq_dec j' i) as [->|];
          [now apply Hhere | apply Hleft; lia].
      * intros j n Hj. destruct (Nat.eq_dec j i) as [->|];
          [now apply Hhere | apply IH; lia].
Qed.

(** What [extract_code_from_message] returns: nothing when the text has
    no code, and otherwise the leftmost code. *)
Lemma extract_code_cases (text : string) :
  match extract_code_from_message text with
  | Some s =>
      exists i n,
        code_at text i n = true /\
        (forall j m, (j < i)%nat -> code_at text j m = false) /\
        s = String.substring i n text
  | None => forall i n, code_at text i n = false
  end.
Proof.
  unfold extract_code_from_message.
  destruct text as [|c text]; cbn [is_empty].
  - intros i n. destruct (code_at "" i n) eqn:E; [|reflexivity].
    destruct (code_at_lengths "" i n E) as [-> | ->];
      unfold code_at in E; cbn [Nat.eqb orb andb all_digits] in E;
      unfold digit_at in E; destruct i; discriminate.
  - unfold Re.search.
    pose proof (search_from_spec (String c text)
                                 (String.length (String c text)) 0) as H.
    destruct (Re.search_from _ _ _ _) as [m|].
    + destruct H as (j & n & Hc & Hleft & Hg). rewrite Hg.
      exists j, n. split; [exact Hc|]. split; [|reflexivity].
      intros j' m' Hj'. apply Hleft. lia.
    + intros i n.
      destruct (Nat.le_gt_cases i (String.length (String c text))).
      * apply H. lia.
      * now apply code_at_beyond.
Qed.

(** C10.  [extract_code_from_message] returns [None] for the empty text
    and for a text without a run of exactly 5 or 6 digits that has no
    word character (letter, digit or underscore) right before or right
    after it; otherwise it returns the leftmost such run.  No such run
    lies inside a run of 7 or more digits. *)
Theorem extract_code_spec (text : string) :
  (text = "" -> extract_code_from_message text = None) /\
  ((forall i n, code_at text i n = false) ->
   extract_code_from_message text = None) /\
  (forall i n,
      code_at text i n = true ->
      (forall j m, (j < i)%nat -> code_at text j m = false) ->
      extract_code_from_message text = Some (String.substring i n text)) /\
  (forall start len i n,
      (7 <= len)%nat -> all_digits text start len = true ->
      (start <= i)%nat -> (i + n <= start + len)%nat ->
      code_at text i n = false).
Proof.
  pose proof (extract_code_cases text) as Hcases.
  split; [|split; [|split]].
  - intros ->. reflexivity.
  - intros Hnone.
    destruct (extract_code_from_message text) as [s|]; [|reflexivity].
    destruct Hcases as (i & n & Hc & _). now rewrite Hnone in Hc.
  - intros i n Hc Hleft.
    destruct (extract_code_from_message text) as [s|].
    + destruct Hcases as (i' & n' & Hc' & Hleft' & ->).
      assert (i' = i) as ->.
      { destruct (Nat.lt_trichotomy i' i) as [Hlt|[Heq|Hgt]]; [|exact Heq|].
        - now rewrite (Hleft i' n' Hlt) in Hc'.
        - now rewrite (Hleft' i n Hgt) in Hc. }
      now rewrite (code_at_unique text i n' n Hc' Hc).
    + now rewrite Hcases in Hc.
  - intros start len i n Hlen Hdigits Hstart Hend.
    destruct (code_at text i n) eqn:Hc; [|reflexivity]. exfalso.
    pose proof (code_at_lengths text i n Hc) as Hn.
    unfold code_at in Hc.
    apply andb_prop in Hc as [Hc Hafter].
    apply andb_prop in Hc as [_ Hbefore].
    destruct (Nat.eq_dec i start) as [->|Hne].
    + pose proof (all_digits_at text start len n Hdigits ltac:(lia)) as D.
      rewrite (digit_is_word text _ D) in Hafter. discriminate.
    + destruct i as [|i]; [lia|]. cbn [Re.word_before] in Hbefore.
      pose proof (all_digits_at text start len (i - start) Hdigits
                                ltac:(lia)) as D.
      replace (start + (i - start))%nat with i in D by lia.
      rewrite (digit_is_word text _ D) in Hbefore. discriminate.
Qed.

Lemma extract_code_spec_witness :
  extract_code_from_message "id 1234567, code 654321." = Some "654321"
  /\ extract_code_from_message "call 1234567 now" = None.
Proof.
  split.
  - destruct (extract_code_spec "id 1234567, code 654321.")
      as (_ & _ & Hfound & Hrun).
    apply (Hfound 17%nat 6%nat); [reflexivity|].
    intros j m Hj.
    do 17 (destruct j as [|j]; [destruct m as [|[|[|[|[|[|[|m]]]]]]];
                                reflexivity|]).
    lia.
  - destruct (extract_code_spec "call 1234567 now") as (_ & Hnone & _).
    apply Hnone. intros i n.
    do 17 (destruct i as [|i]; [destruct n as [|[|[|[|[|[|[|n]]]]]]];
                                reflexivity|]).
    destruct n as [|[|[|[|[|[|[|n]]]]]]]; reflexivity.
Defined.

End Codes.

(** ** Accessors *)

Section Accessors.

Lemma all_space_app (a b : string) :
  all_space (a ++ b) = all_space a && all_space b.
Proof.
  induction a as [|c a IH]; simpl; [reflexivity|].
  now rewrite IH, andb_assoc.
Qed.

Lemma strip_all_space (s : string) : all_space s = true -> strip s = "".
Proof.
  unfold strip. induction s as [|c s IH]; simpl; [reflexivity|].
  intros H. apply andb_prop in H as [-> H]. auto.
Qed.

Lemma or_else_blank (v : option string) :
  blank v = true -> all_space (or_else v "") = true.
Proof.
  destruct v as [s|]; simpl; [|reflexivity].
  destruct s; simpl; auto.
Qed.

(** Blank first and last names make a blank full name. *)
Lemma full_name_blank (first last : option string) :
  blank first = true -> blank last = true ->
  all_space (full_name first last) = true.
Proof.
  intros Hf Hl. unfold full_name. rewrite all_space_app.
  rewrite (or_else_blank first Hf). cbn [andb].
  destruct (truthy last); [|reflexivity].
  change (" " ++ or_else last "") with (String " " (or_else last "")).
  cbn [all_space]. rewrite (or_else_blank last Hl). reflexivity.
Qed.

(** The user branch of [get_display_name]. *)
Lemma display_name_of_user (u : entity) (first : option string) :
  first_name u = Attr first ->
  get_display_name (Some u)
  = or_else (Some (strip (full_name first (last_name_of u)))) "Unknown".
Proof.
  intros H. unfold get_display_name, full_name, last_name_of. rewrite H.
  destruct (last_name u) as [|last]; cbn [truthy].
  - now rewrite string_app_empty_r.
  - destruct (truthy last); [reflexivity|].
    now rewrite string_app_empty_r.
Qed.

(** C8.  What the code does where the claim says the title is returned:
    a channel of the host library has the name fields of a user, both
    unset, beside its title.  The code looks at the title only when
    there is no [first_name] field, so the channel gets "Unknown",
    whatever its title. *)
Theorem get_display_name_of_channel :
  title titled_with_name_fields = Attr (Some "News")
  /\ get_display_name (Some titled_with_name_fields) = "Unknown"
  /\ forall t,
       get_display_name
         (Some {| first_name := Attr None; last_name := Attr None;
                  title := Attr t |}) = "Unknown".
Proof. repeat split. Qed.

(** C9.  [get_message_text] returns the text when text and caption are
    both present, the caption when only the caption is present, and the
    empty string when neither is present. *)
Theorem get_message_text_spec (m : message) :
  (forall t c, present (text m) t -> present (caption m) c ->
               get_message_text m = t) /\
  (forall t, present (text m) t -> get_message_text m = t) /\
  (forall c, absent (text m) -> present (caption m) c ->
             get_message_text m = c) /\
  (absent (text m) -> absent (caption m) -> get_message_text m = "").
Proof.
  unfold get_message_text, present, absent.
  assert (Hpresent : forall f s, f = Some s -> s <> "" ->
                                 truthy f = true /\ or_else f "" = s).
  { intros f s -> Hs. destruct s; [easy|]. split; reflexivity. }
  assert (Habsent : forall f, f = None \/ f = Some "" -> truthy f = false).
  { intros f [-> | ->]; reflexivity. }
  repeat split.
  - intros t c [Ht Hne] _. destruct (Hpresent _ _ Ht Hne) as [-> ->].
    reflexivity.
  - intros t [Ht Hne]. destruct (Hpresent _ _ Ht Hne) as [-> ->].
    reflexivity.
  - intros c Ht [Hc Hne]. rewrite (Habsent _ Ht).
    destruct (Hpresent _ _ Hc Hne) as [-> ->]. reflexivity.
  - intros Ht Hc. now rewrite (Habsent _ Ht), (Habsent _ Hc).
Qed.

Lemma get_message_text_spec_witness :
  get_message_text {| text := Some "hello"; caption := Some "a photo" |}
  = "hello"
  /\ get_message_text {| text := None; caption := Some "a photo" |}
     = "a photo"
  /\ get_message_text {| text := None; caption := None |} = "".
Proof.
  split; [|split].
  - apply (get_message_text_spec
             {| text := Some "hello"; caption := Some "a photo" |})
      with (c := "a photo"); split; (reflexivity || discriminate).
  - destruct (get_message_text_spec
                {| text := None; caption := Some "a photo" |})
      as (_ & _ & Hcaption & _).
    apply Hcaption; [left; reflexivity|].
    split; [reflexivity | discriminate].
  - destruct (get_message_text_spec {| text := None; caption := None |})
      as (_ & _ & _ & Hnone).
    apply Hnone; left; reflexivity.
Defined.

End Accessors.

(** * Further properties *)

(** ** Texts and links *)

Section Texts.

Lemma all_chars_weaken (p q : ascii -> bool) (s : string) :
  (forall c, p c = true -> q c = true) ->
  all_chars p s = true -> all_chars q s = true.
Proof.
  intros Hpq. induction s as [|c s IH]; simpl; [reflexivity|].
  intros H. apply andb_prop in H as [Hc Hs].
  now rewrite (Hpq c Hc), IH.
Qed.

Lemma all_chars_app (p : ascii -> bool) (a b : string) :
  all_chars p (a ++ b) = all_chars p a && all_chars p b.
Proof.
  induction a as [|c a IH]; simpl; [reflexivity|].
  now rewrite IH, andb_assoc.
Qed.

Lemma join_one (sep s : string) : join sep [s] = s.
Proof. reflexivity. Qed.

Lemma join_cons (sep s s' : string) (rest : list string) :
  join sep (s :: s' :: rest) = s ++ sep ++ join sep (s' :: rest).
Proof. reflexivity. Qed.

Lemma string_app_char (c : ascii) (s : string) :
  String c "" ++ s = String c s.
Proof. reflexivity. Qed.

Lemma all_chars_join (p : ascii -> bool) (sep : string)
      (pieces : list string) :
  all_chars p sep = true ->
  Forall (fun s => all_chars p s = true) pieces ->
  all_chars p (join sep pieces) = true.
Proof.
  intros Hsep H.
  induction H as [|s pieces Hs Hrest IH]; [reflexivity|].
  destruct pieces as [|s' pieces]; [exact Hs|].
  now rewrite join_cons, !all_chars_app, Hs, Hsep, IH.
Qed.

(** Stripping leaves alone a text without the characters stripped. *)
Lemma lstrip_with_keep (p : ascii -> bool) (s : string) :
  all_chars (fun c => negb (p c)) s = true -> lstrip_with p s = s.
Proof.
  destruct s as [|c s]; simpl; [reflexivity|].
  intros H. apply andb_prop in H as [Hc _].
  now destruct (p c).
Qed.

Lemma rstrip_with_keep (p : ascii -> bool) (s : string) :
  all_chars (fun c => negb (p c)) s = true -> rstrip_with p s = s.
Proof.
  induction s as [|c s IH]; simpl; [reflexivity|].
  intros H. apply andb_prop in H as [Hc Hs]. rewrite (IH Hs).
  destruct s; [|reflexivity]. now destruct (p c).
Qed.

(** A text that ends with a piece kept by the stripping is kept whole. *)
Lemma rstrip_with_app_keep (p : ascii -> bool) (a b : string) :
  b <> "" -> all_chars (fun c => negb (p c)) b = true ->
  rstrip_with p (a ++ b) = a ++ b.
Proof.
  intros Hb Hkeep. induction a as [|c a IH]; simpl.
  - now apply rstrip_with_keep.
  - rewrite IH. destruct (a ++ b) eqn:E; [|reflexivity].
    destruct a; [simpl in E; contradiction|discriminate].
Qed.

Lemma string_prefix_empty (s : string) : String.prefix "" s = true.
Proof. now destruct s. Qed.

(** A text without the first character of [sub] does not contain it. *)
Lemma contains_without (ch : ascii) (sub s : string) :
  without ch s = true -> contains (String ch sub) s = false.
Proof.
  unfold without. induction s as [|c s IH]; [reflexivity|].
  cbn [all_chars contains String.prefix]. intros H.
  apply andb_prop in H as [Hc Hs]. rewrite (IH Hs).
  destruct (ascii_dec ch c) as [<-|]; [|reflexivity].
  rewrite Ascii.eqb_refl in Hc. discriminate Hc.
Qed.

(** *** Splitting at slashes *)

Lemma split_char_without (sep : ascii) (s : string) :
  without sep s = true -> split_char sep s = [s].
Proof.
  unfold without. induction s as [|c s IH]; [reflexivity|].
  cbn [all_chars split_char]. intros H. apply andb_prop in H as [Hc Hs].
  apply negb_true_iff in Hc. now rewrite Hc, (IH Hs).
Qed.

Lemma split_char_app (sep : ascii) (a b : string) :
  without sep a = true ->
  split_char sep (a ++ String sep b) = a :: split_char sep b.
Proof.
  unfold without.
  induction a as [|c a IH]; cbn [all_chars String.append split_char].
  - intros _. now rewrite Ascii.eqb_refl.
  - intros H. apply andb_prop in H as [Hc Ha].
    apply negb_true_iff in Hc. now rewrite Hc, (IH Ha).
Qed.

(** Splitting undoes joining, for pieces without the separator. *)
Lemma split_char_join (sep : ascii) (pieces : list string) :
  pieces <> [] ->
  Forall (fun s => without sep s = true) pieces ->
  split_char sep (join (String sep "") pieces) = pieces.
Proof.
  intros Hne H.
  induction H as [|s pieces Hs Hrest IH]; [easy|].
  destruct pieces as [|s' pieces].
  - rewrite join_one. now apply split_char_without.
  - rewrite join_cons, string_app_char, (split_char_app sep s _ Hs).
    f_equal. apply IH. discriminate.
Qed.

(** The joined text ends with its last piece. *)
Lemma join_last (sep : string) (init : list string) (last : string) :
  exists before, join sep (init ++ [last]) = before ++ last.
Proof.
  induction init as [|s init [before IH]].
  - now exists "".
  - cbn [List.app].
    destruct (init ++ [last])%list as [|s' rest] eqn:E.
    + now destruct init.
    + exists (s ++ sep ++ before).
      now rewrite join_cons, IH, !string_app_assoc.
Qed.

(** *** The marker of private links *)

Lemma contains_marker_skip (p s : string) :
  without "/" p = true -> contains "/c/" (p ++ s) = contains "/c/" s.
Proof.
  unfold without. induction p as [|c p IH]; [reflexivity|].
  cbn [all_chars String.append]. intros H. apply andb_prop in H as [Hc Hp].
  cbn [contains String.prefix]. rewrite (IH Hp).
  destruct (ascii_dec "/" c) as [<-|]; [discriminate Hc|reflexivity].
Qed.

Lemma contains_marker_none (q : string) :
  without "/" q = true -> contains "/c/" q = false.
Proof.
  intros H. rewrite <- (string_app_empty_r q).
  now rewrite contains_marker_skip.
Qed.

Lemma contains_marker_slash (s : string) :
  contains "/c/" (String "/" s) = String.prefix "c/" s || contains "/c/" s.
Proof.
  cbn [contains String.prefix].
  destruct (ascii_dec "/" "/"); [reflexivity|contradiction].
Qed.

Lemma prefix_marker_piece (q s : string) :
  without "/" q = true ->
  String.prefix "c/" (q ++ String "/" s) = is_marker q.
Proof.
  unfold without, is_marker.
  destruct q as [|c q]; cbn [all_chars String.append].
  - intros _. reflexivity.
  - intros H. apply andb_prop in H as [_ Hq].
    cbn [String.prefix String.eqb].
    destruct (ascii_dec "c" c) as [<-|Hne].
    + rewrite Ascii.eqb_refl.
      destruct q as [|d q]; cbn [String.append String.prefix].
      * destruct (ascii_dec "/" "/"); [|contradiction].
        apply string_prefix_empty.
      * cbn [all_chars] in Hq. apply andb_prop in Hq as [Hd _].
        destruct (ascii_dec "/" d) as [<-|]; [discriminate Hd|reflexivity].
    + destruct (Ascii.eqb_spec c "c") as [->|]; [contradiction|reflexivity].
Qed.

Lemma prefix_marker_last (q : string) :
  without "/" q = true -> String.prefix "c/" q = false.
Proof.
  unfold without. destruct q as [|c q]; [reflexivity|].
  cbn [all_chars String.prefix]. intros H. apply andb_prop in H as [_ Hq].
  destruct (ascii_dec "c" c); [|reflexivity].
  destruct q as [|d q]; [reflexivity|].
  cbn [all_chars] in Hq. apply andb_prop in Hq as [Hd _].
  cbn [String.prefix].
  destruct (ascii_dec "/" d) as [<-|]; [discriminate Hd|reflexivity].
Qed.

(** Joined pieces contain "/c/" exactly when a piece other than the first
    and the last is "c". *)
Lemma contains_marker_join (first : string) (rest : list string) :
  Forall (fun s => without "/" s = true) (first :: rest) ->
  contains "/c/" (join "/" (first :: rest))
  = existsb is_marker (removelast rest).
Proof.
  revert first.
  induction rest as [|q rest IH]; intros first H.
  - rewrite join_one. apply contains_marker_none. now inversion H.
  - inversion H as [|? ? Hfirst Hrest]; subst.
    inversion Hrest as [|? ? Hq _]; subst.
    rewrite join_cons, string_app_char.
    rewrite (contains_marker_skip first _ Hfirst), contains_marker_slash.
    rewrite (IH q Hrest).
    destruct rest as [|r rest].
    + rewrite join_one. cbn [removelast existsb].
      now rewrite (prefix_marker_last q Hq).
    + rewrite join_cons, string_app_char.
      rewrite (prefix_marker_piece q _ Hq). reflexivity.
Qed.

End Texts.

Section Canonical.

Lemma digit_not_int_space (c : ascii) :
  isdecimal c = true -> negb (int_space c) = true.
Proof. destruct c as [[] [] [] [] [] [] [] []]; vm_compute; congruence. Qed.

Lemma digit_plain (c : ascii) : isdecimal c = true -> plain_char c = true.
Proof. destruct c as [[] [] [] [] [] [] [] []]; vm_compute; congruence. Qed.

Lemma digit_value_range (c : ascii) :
  isdecimal c = true -> 0 <= digit_value c <= 9.
Proof.
  destruct c as [[] [] [] [] [] [] [] []]; vm_compute;
    try discriminate; intros _; split; discriminate.
Qed.

Lemma count_digits_app (a b : string) :
  count_digits (a ++ b) = count_digits a + count_digits b.
Proof.
  induction a as [|c a IH]; cbn [String.append count_digits]; [reflexivity|].
  rewrite IH. lia.
Qed.

(** The digits of an integer are those of its text after the sign. *)
Lemma num_digits_shape (z : Z) (text : string) :
  decimal z = (if z <? 0 then "-" else "") ++ text ->
  num_digits z = count_digits text.
Proof.
  unfold num_digits. intros ->. rewrite count_digits_app.
  destruct (z <? 0); reflexivity.
Qed.

(** [int] on a text made of digits. *)
Lemma int_digits (digits : string) :
  digits <> "" -> all_chars isdecimal digits = true ->
  int digits = match digits_value 0 false digits with
               | Some n =>
                   if max_str_digits <? count_digits digits
                   then Raise ValueError else Return n
               | None => Raise ValueError
               end.
Proof.
  intros Hne Hd. unfold int.
  pose proof (all_chars_weaken _ _ digits digit_not_int_space Hd) as Hs.
  rewrite (lstrip_with_keep int_space digits Hs).
  rewrite (rstrip_with_keep int_space digits Hs).
  destruct digits as [|c rest]; [easy|].
  cbn [all_chars] in Hd. apply andb_prop in Hd as [Hc _].
  destruct c as [[] [] [] [] [] [] [] []]; try discriminate Hc; reflexivity.
Qed.

(** [int] on a minus sign followed by digits. *)
Lemma int_minus_digits (digits : string) :
  all_chars isdecimal digits = true ->
  int (String "-" digits) = match digits_value 0 false digits with
                            | Some n =>
                                if max_str_digits <? count_digits digits
                                then Raise ValueError else Return (- n)
                            | None => Raise ValueError
                            end.
Proof.
  intros Hd. unfold int.
  pose proof (all_chars_weaken _ _ digits digit_not_int_space Hd) as Hs.
  assert (Hall : all_chars (fun c => negb (int_space c)) (String "-" digits)
                 = true) by (cbn [all_chars]; now rewrite Hs).
  rewrite (lstrip_with_keep int_space _ Hall).
  rewrite (rstrip_with_keep int_space _ Hall).
  cbv iota beta. destruct (digits_value 0 false digits); [|reflexivity].
  destruct (_ <? _); reflexivity.
Qed.

(** Reading back the text of an integer gives the integer, up to
    [max_str_digits] digits. *)
Lemma int_decimal (z : Z) :
  num_digits z <= max_str_digits -> int (decimal z) = Return z.
Proof.
  intros Hlimit.
  destruct (decimal_shape z) as (digits & Hne & Hd & Hstr & Hval).
  rewrite (num_digits_shape z digits Hstr) in Hlimit.
  apply Z.ltb_ge in Hlimit.
  rewrite Hstr. destruct (Z.ltb_spec z 0).
  - change ("-" ++ digits) with (String "-" digits).
    rewrite (int_minus_digits digits Hd), Hval, Hlimit. f_equal. lia.
  - change ("" ++ digits) with digits.
    rewrite (int_digits digits Hne Hd), Hval, Hlimit. f_equal. lia.
Qed.

(** Beyond [max_str_digits] digits the text of an integer is not read
    back. *)
Lemma int_decimal_over (z : Z) :
  max_str_digits < num_digits z -> int (decimal z) = Raise ValueError.
Proof.
  intros Hlimit.
  destruct (decimal_shape z) as (digits & Hne & Hd & Hstr & Hval).
  rewrite (num_digits_shape z digits Hstr) in Hlimit.
  apply Z.ltb_lt in Hlimit.
  rewrite Hstr. destruct (Z.ltb_spec z 0).
  - change ("-" ++ digits) with (String "-" digits).
    now rewrite (int_minus_digits digits Hd), Hval, Hlimit.
  - change ("" ++ digits) with digits.
    now rewrite (int_digits digits Hne Hd), Hval, Hlimit.
Qed.

(** The text of an integer is a plain segment, and not empty. *)
Lemma decimal_plain (z : Z) : plain (decimal z) = true /\ decimal z <> "".
Proof.
  destruct (decimal_shape z) as (digits & Hne & Hd & Hstr & _).
  pose proof (all_chars_weaken _ _ digits digit_plain Hd) as Hp.
  rewrite Hstr. unfold plain. destruct (z <? 0).
  - split; [|discriminate]. cbn [String.append all_chars]. now rewrite Hp.
  - split; [exact Hp|]. now destruct digits.
Qed.

Lemma digits_value_lower (acc : Z) (after_digit : bool) (s : string) :
  s <> "" -> all_chars isdecimal s = true -> 0 <= acc ->
  exists v, digits_value acc after_digit s = Some v /\ 10 * acc <= v.
Proof.
  revert acc after_digit. induction s as [|c s IH]; [easy|].
  intros acc after_digit _ Hd Hacc.
  cbn [all_chars] in Hd. apply andb_prop in Hd as [Hc Hs].
  cbn [digits_value]. rewrite Hc.
  pose proof (digit_value_range c Hc) as Hv.
  destruct s as [|c' s'].
  - exists (10 * acc + digit_value c). split; [reflexivity|lia].
  - destruct (IH (10 * acc + digit_value c) true ltac:(discriminate) Hs
                 ltac:(lia)) as (v & Hv' & Hle).
    exists v. split; [exact Hv'|lia].
Qed.

(** Prefixing "-100" to the text of a non-negative number gives the text
    of a number that is at most -1000; it is read unless the three
    digits more take it over the limit. *)
Lemma int_prefixed (n : Z) :
  0 <= n ->
  exists c,
    c <= -1000 /\
    int ("-100" ++ decimal n)
    = if max_str_digits <? 3 + num_digits n then Raise ValueError
      else Return c.
Proof.
  intros Hn. destruct (decimal_shape n) as (digits & Hne & Hd & Hstr & _).
  rewrite (num_digits_shape n digits Hstr).
  rewrite Hstr. destruct (Z.ltb_spec n 0); [lia|].
  change ("-100" ++ "" ++ digits) with (String "-" ("100" ++ digits)).
  rewrite int_minus_digits by (rewrite all_chars_app, Hd; reflexivity).
  change (digits_value 0 false ("100" ++ digits))
    with (digits_value 100 true digits).
  destruct (digits_value_lower 100 true digits Hne Hd ltac:(lia))
    as (v & -> & Hle).
  exists (- v). split; [lia|].
  rewrite count_digits_app. reflexivity.
Qed.

(** Prefixing "-100" to the text of a negative number gives no number. *)
Lemma int_prefixed_negative (n : Z) :
  n < 0 -> int ("-100" ++ decimal n) = Raise ValueError.
Proof.
  intros Hn. destruct (decimal_shape n) as (digits & Hne & Hd & Hstr & _).
  rewrite Hstr. destruct (Z.ltb_spec n 0); [|lia].
  pose proof (all_chars_weaken _ _ digits digit_not_int_space Hd) as Hs.
  assert (Hall : all_chars (fun c => negb (int_space c))
                           ("-100" ++ "-" ++ digits) = true)
    by (cbn [String.append all_chars]; now rewrite Hs).
  unfold int.
  rewrite (lstrip_with_keep int_space _ Hall).
  rewrite (rstrip_with_keep int_space _ Hall). reflexivity.
Qed.

Lemma plain_without_slash (s : string) :
  plain s = true -> without "/" s = true.
Proof.
  apply all_chars_weaken. intros c H. unfold plain_char in H.
  apply andb_prop in H as [H _]. now apply andb_prop in H as [H _].
Qed.

Lemma plain_without_question (s : string) :
  plain s = true -> without "?" s = true.
Proof.
  apply all_chars_weaken. intros c H. unfold plain_char in H.
  apply andb_prop in H as [H _]. now apply andb_prop in H as [_ H].
Qed.

Lemma plain_no_space (s : string) :
  plain s = true -> all_chars (fun c => negb (isspace c)) s = true.
Proof.
  apply all_chars_weaken. intros c H. unfold plain_char in H.
  now apply andb_prop in H as [_ H].
Qed.

Lemma Forall_plain (P : string -> Prop) (l : list string) :
  (forall s, plain s = true -> P s) ->
  Forall (fun s => plain s = true) l -> Forall P l.
Proof. intros HP H. induction H; constructor; auto. Qed.

(** How the parser reads a link made of plain segments, the last one not
    empty: nothing is stripped or cut, the segments are found again after
    "https:", "" and "t.me", and the link has the marker "/c/" exactly
    when a segment before the last is "c". *)
Lemma link_of_plain (init : list string) (last : string) :
  Forall (fun s => plain s = true) (init ++ [last]) ->
  last <> "" ->
  link_path (link_of (init ++ [last])) = Return (link_of (init ++ [last]))
  /\ link_segments (link_of (init ++ [last]))
     = "https:" :: "" :: "t.me" :: init ++ [last]
  /\ contains "/c/" (link_of (init ++ [last])) = existsb is_marker init.
Proof.
  intros Hplain Hlast.
  assert (Hlastp : plain last = true).
  { apply Forall_app in Hplain as [_ H]. now inversion H. }
  assert (Hjoin : link_of (init ++ [last])
                  = join "/" ("https:" :: "" :: "t.me" :: init ++ [last])).
  { unfold link_of. destruct (init ++ [last])%list eqn:E; [|reflexivity].
    now destruct init. }
  assert (Hslash : Forall (fun s => without "/" s = true)
                          ("https:" :: "" :: "t.me" :: init ++ [last])).
  { repeat (constructor; [reflexivity|]).
    apply (Forall_plain _ _ plain_without_slash Hplain). }
  split; [|split].
  - unfold link_path, strip.
    assert (Hsp : all_chars (fun c => negb (isspace c))
                            (link_of (init ++ [last])) = true).
    { unfold link_of. rewrite all_chars_app. apply andb_true_intro.
      split; [reflexivity|]. apply all_chars_join; [reflexivity|].
      apply (Forall_plain _ _ plain_no_space Hplain). }
    rewrite (lstrip_with_keep isspace _ Hsp), (rstrip_with_keep isspace _ Hsp).
    rewrite contains_without; [reflexivity|].
    unfold without, link_of. rewrite all_chars_app. apply andb_true_intro.
    split; [reflexivity|]. apply all_chars_join; [reflexivity|].
    apply (Forall_plain _ _ plain_without_question Hplain).
  - unfold link_segments, rstrip_char. rewrite Hjoin.
    destruct (join_last "/" ("https:" :: "" :: "t.me" :: init) last)
      as [before Hb].
    change (("https:" :: "" :: "t.me" :: init) ++ [last])%list
      with ("https:" :: "" :: "t.me" :: init ++ [last]) in Hb.
    rewrite Hb, rstrip_with_app_keep, <- Hb.
    + apply split_char_join; [discriminate|exact Hslash].
    + exact Hlast.
    + apply plain_without_slash in Hlastp. unfold without in Hlastp.
      revert Hlastp. apply all_chars_weaken. intros c Hc.
      now rewrite Ascii.eqb_sym.
  - rewrite Hjoin, (contains_marker_join _ _ Hslash).
    change ("" :: "t.me" :: init ++ [last])
      with (("" :: "t.me" :: init) ++ [last])%list.
    rewrite removelast_last. reflexivity.
Qed.

End Canonical.

(** ** Building and parsing links *)

Section LinkRoundTrips.

Lemma prefix_app_self (p s : string) : String.prefix p (p ++ s) = true.
Proof.
  induction p as [|c p IH]; cbn [String.append String.prefix].
  - apply string_prefix_empty.
  - destruct (ascii_dec c c); [exact IH|contradiction].
Qed.

Lemma prefix_minus_digits (rest s : string) :
  all_chars isdecimal s = true -> String.prefix (String "-" rest) s = false.
Proof.
  destruct s as [|c s]; [reflexivity|].
  cbn [all_chars String.prefix]. intros H. apply andb_prop in H as [Hc _].
  destruct (ascii_dec "-" c) as [<-|]; [discriminate Hc|reflexivity].
Qed.

(** The text of an integer is never the marker "c". *)
Lemma decimal_not_marker (z : Z) : is_marker (decimal z) = false.
Proof.
  destruct (decimal_shape z) as (digits & Hne & Hd & -> & _).
  unfold is_marker. destruct (z <? 0); [reflexivity|].
  destruct digits as [|c rest]; [reflexivity|].
  cbn [all_chars] in Hd. apply andb_prop in Hd as [Hc _].
  cbn [String.append String.eqb].
  destruct (Ascii.eqb_spec c "c") as [->|]; [discriminate Hc|reflexivity].
Qed.

(** The link built for a chat without username, when the ids are within
    the limit on digits. *)
Lemma private_link_of (chat_id message_id : Z) :
  num_digits chat_id <= max_str_digits ->
  num_digits message_id <= max_str_digits ->
  get_message_link chat_id message_id None
  = Return
      (link_of ["c";
                if startswith "-100" (decimal chat_id)
                then drop 4 (decimal chat_id)
                else decimal chat_id;
                decimal message_id]).
Proof.
  intros Hc Hm. unfold get_message_link. cbn [truthy].
  now rewrite (str_returns chat_id Hc), (str_returns message_id Hm).
Qed.

(** The link built for a chat with a username. *)
Lemma public_link_of (chat_id message_id : Z) (username : string) :
  username <> "" ->
  num_digits message_id <= max_str_digits ->
  get_message_link chat_id message_id (Some username)
  = Return (link_of [username; decimal message_id]).
Proof.
  intros Hne Hm. unfold get_message_link.
  destruct username; [easy|]. cbn [truthy is_empty negb].
  now rewrite (str_returns message_id Hm).
Qed.

Ltac plain_segments :=
  cbn [List.app];
  repeat (apply Forall_cons;
          [first [reflexivity | assumption | apply decimal_plain]|]);
  apply Forall_nil.

(** X1.  Public round trip: a link built with a username that is plain (no
    slash, question mark or whitespace), not empty and not "c", for a
    message id of at most 4300 digits, parses back to that username and
    message id, whatever the chat id. *)
Theorem public_round_trip (chat_id message_id : Z) (username : string) :
  username <> "" -> plain username = true -> username <> "c" ->
  num_digits message_id <= max_str_digits ->
  (link <- get_message_link chat_id message_id (Some username) ;;
   parse_message_link link)
  = Return (Some (Username username), None, Some message_id).
Proof.
  intros Hne Hplain Hc Hm. rewrite (public_link_of _ _ _ Hne Hm).
  cbn [bind].
  assert (Hplains : Forall (fun s => plain s = true)
                           ([username] ++ [decimal message_id]))
    by plain_segments.
  destruct (link_of_plain [username] (decimal message_id) Hplains
                          (proj2 (decimal_plain message_id)))
    as (Hpath & Hsegs & Hmark).
  cbn [List.app] in Hpath, Hsegs, Hmark |- *.
  rewrite (parse_message_link_on_path _ _ Hpath), Hsegs.
  unfold parse_link_body. rewrite Hmark.
  cbn [existsb]. unfold is_marker at 1.
  rewrite (proj2 (String.eqb_neq username "c") Hc). cbn [orb].
  change (6 <=? len _) with false. change (4 <=? len _) with true.
  change (index _ (-2)) with (Return username).
  change (index _ (-1)) with (Return (decimal message_id)).
  cbn [bind try_except]. rewrite (int_decimal message_id Hm). reflexivity.
Qed.

Lemma public_round_trip_witness :
  (link <- get_message_link 42 (-7) (Some "durov_says") ;;
   parse_message_link link)
  = Return (Some (Username "durov_says"), None, Some (-7)).
Proof.
  apply public_round_trip;
    [discriminate | reflexivity | discriminate | vm_compute; discriminate].
Defined.

(** X5.  The username "c" collides with the marker of private links: the link
    built for it, for a message id of at most 4300 digits, does not
    parse. *)
Theorem public_link_of_c_is_lost (chat_id message_id : Z) :
  num_digits message_id <= max_str_digits ->
  (link <- get_message_link chat_id message_id (Some "c") ;;
   parse_message_link link)
  = Return no_parts.
Proof.
  intros Hm. rewrite public_link_of by (discriminate || assumption).
  cbn [bind].
  assert (Hplains : Forall (fun s => plain s = true)
                           (["c"] ++ [decimal message_id]))
    by plain_segments.
  destruct (link_of_plain ["c"] (decimal message_id) Hplains
                          (proj2 (decimal_plain message_id)))
    as (Hpath & Hsegs & Hmark).
  cbn [List.app] in Hpath, Hsegs, Hmark |- *.
  rewrite (parse_message_link_on_path _ _ Hpath), Hsegs.
  unfold parse_link_body. rewrite Hmark. reflexivity.
Qed.

Lemma public_link_of_c_is_lost_witness :
  (link <- get_message_link 42 9 (Some "c") ;; parse_message_link link)
  = Return no_parts.
Proof. apply public_link_of_c_is_lost. vm_compute. discriminate. Defined.

(** The parse of a private link without thread, from its segments. *)
Lemma parse_private_link (channel : string) (channel_id message_id : Z) :
  plain channel = true ->
  int channel = Return channel_id ->
  num_digits message_id <= max_str_digits ->
  parse_message_link (link_of ["c"; channel; decimal message_id])
  = match prefixed channel_id with
    | Return chat => Return (Some (ChatId chat), None, Some message_id)
    | Raise _ => Return no_parts
    end.
Proof.
  intros Hplain Hint Hm.
  assert (Hplains : Forall (fun s => plain s = true)
                           (["c"; channel] ++ [decimal message_id]))
    by plain_segments.
  destruct (link_of_plain ["c"; channel] (decimal message_id) Hplains
                          (proj2 (decimal_plain message_id)))
    as (Hpath & Hsegs & Hmark).
  cbn [List.app] in Hpath, Hsegs, Hmark |- *.
  rewrite (parse_message_link_on_path _ _ Hpath), Hsegs.
  unfold parse_link_body. rewrite Hmark.
  cbn [existsb is_marker String.eqb Ascii.eqb Bool.eqb orb].
  change (7 <=? len _) with false. change (6 <=? len _) with true.
  change (index _ (-2)) with (Return channel).
  change (index _ (-1)) with (Return (decimal message_id)).
  cbn [bind]. rewrite Hint. cbn [bind].
  rewrite (int_decimal message_id Hm). cbn [bind].
  unfold prefixed.
  destruct (str_cases channel_id) as [[_ ->] | [_ ->]]; [|reflexivity].
  cbn [bind].
  destruct (int_raises_only_ValueError ("-100" ++ decimal channel_id))
    as [[c ->] | ->]; reflexivity.
Qed.

(** A chat id written "-100" and then a number has three digits more
    than the number. *)
Lemma num_digits_prefixed (chat_id n : Z) :
  decimal chat_id = "-100" ++ decimal n ->
  num_digits chat_id = 3 + num_digits n.
Proof.
  unfold num_digits. intros ->. now rewrite count_digits_app.
Qed.

(** Such a chat id is what the parser makes of the number. *)
Lemma prefixed_channel (chat_id n : Z) :
  decimal chat_id = "-100" ++ decimal n ->
  num_digits chat_id <= max_str_digits ->
  prefixed n = Return chat_id.
Proof.
  intros Hstr Hc. unfold prefixed.
  pose proof (num_digits_prefixed chat_id n Hstr) as Hn.
  rewrite (str_returns n) by lia. cbn [bind].
  rewrite <- Hstr. apply int_decimal. exact Hc.
Qed.

(** X2.  Private round trip: for a chat id written "-100" followed by a number,
    as channels are, and ids of at most 4300 digits, the link built
    without username parses back to the chat id and the message id. *)
Theorem private_round_trip (chat_id n message_id : Z) :
  0 <= n -> decimal chat_id = "-100" ++ decimal n ->
  num_digits chat_id <= max_str_digits ->
  num_digits message_id <= max_str_digits ->
  (link <- get_message_link chat_id message_id None ;;
   parse_message_link link)
  = Return (Some (ChatId chat_id), None, Some message_id).
Proof.
  intros Hn Hstr Hc Hm. rewrite (private_link_of _ _ Hc Hm), Hstr.
  cbn [bind]. unfold startswith. rewrite prefix_app_self.
  change (drop 4 ("-100" ++ decimal n)) with (decimal n).
  pose proof (num_digits_prefixed chat_id n Hstr) as Hdigits.
  rewrite (parse_private_link (decimal n) n message_id
                              (proj1 (decimal_plain n))
                              (int_decimal n ltac:(lia)) Hm).
  now rewrite (prefixed_channel chat_id n Hstr Hc).
Qed.

Lemma private_round_trip_witness :
  (link <- get_message_link (-1009876543210) 31 None ;;
   parse_message_link link)
  = Return (Some (ChatId (-1009876543210)), None, Some 31).
Proof.
  apply (private_round_trip (-1009876543210) 9876543210 31);
    [lia | reflexivity | vm_compute; discriminate
     | vm_compute; discriminate].
Defined.

(** X3.  A chat id that is not negative does not come back: the link built for
    it parses to another chat id, at most -1000.  The chat id has at
    most 4297 digits, which the prefix "-100" takes to the limit of
    4300, and the message id at most 4300. *)
Theorem private_link_of_positive_id (chat_id message_id : Z) :
  0 <= chat_id ->
  3 + num_digits chat_id <= max_str_digits ->
  num_digits message_id <= max_str_digits ->
  exists chat,
    chat <= -1000 /\
    (link <- get_message_link chat_id message_id None ;;
     parse_message_link link)
    = Return (Some (ChatId chat), None, Some message_id).
Proof.
  intros Hpos Hc Hm.
  rewrite (private_link_of chat_id message_id ltac:(lia) Hm). cbn [bind].
  destruct (decimal_shape chat_id) as (digits & _ & Hd & Hstr & _).
  destruct (Z.ltb_spec chat_id 0); [lia|].
  assert (Hno : startswith "-100" (decimal chat_id) = false)
    by (rewrite Hstr; apply prefix_minus_digits; exact Hd).
  rewrite Hno.
  destruct (int_prefixed chat_id Hpos) as (chat & Hle & Hchat).
  apply Z.ltb_ge in Hc. rewrite Hc in Hchat. apply Z.ltb_ge in Hc.
  exists chat. split; [exact Hle|].
  rewrite (parse_private_link (decimal chat_id) chat_id message_id
                              (proj1 (decimal_plain chat_id))
                              (int_decimal chat_id ltac:(lia)) Hm).
  unfold prefixed. rewrite (str_returns chat_id) by lia. cbn [bind].
  now rewrite Hchat.
Qed.

Lemma private_link_of_positive_id_witness :
  exists chat,
    chat <= -1000 /\
    (link <- get_message_link 777000 5 None ;; parse_message_link link)
    = Return (Some (ChatId chat), None, Some 5).
Proof.
  apply private_link_of_positive_id;
    [lia | vm_compute; discriminate | vm_compute; discriminate].
Defined.

(** X4.  A negative chat id that does not start with "-100" is lost: the link
    built for it, with ids of at most 4300 digits, does not parse. *)
Theorem private_link_of_plain_negative_id (chat_id message_id : Z) :
  chat_id < 0 -> startswith "-100" (decimal chat_id) = false ->
  num_digits chat_id <= max_str_digits ->
  num_digits message_id <= max_str_digits ->
  (link <- get_message_link chat_id message_id None ;;
   parse_message_link link)
  = Return no_parts.
Proof.
  intros Hneg Hno Hc Hm. rewrite (private_link_of _ _ Hc Hm), Hno.
  cbn [bind].
  rewrite (parse_private_link (decimal chat_id) chat_id message_id
                              (proj1 (decimal_plain chat_id))
                              (int_decimal chat_id Hc) Hm).
  unfold prefixed. rewrite (str_returns chat_id Hc). cbn [bind].
  now rewrite (int_prefixed_negative chat_id Hneg).
Qed.

Lemma private_link_of_plain_negative_id_witness :
  (link <- get_message_link (-4321) 5 None ;; parse_message_link link)
  = Return no_parts.
Proof.
  apply private_link_of_plain_negative_id;
    [lia | reflexivity | vm_compute; discriminate
     | vm_compute; discriminate].
Defined.

(** X6.  A private link with a thread parses to the chat id written "-100"
    followed by the channel number, the thread id and the message id,
    each of at most 4300 digits. *)
Theorem parse_private_thread_link (chat_id n thread_id message_id : Z) :
  0 <= n -> decimal chat_id = "-100" ++ decimal n ->
  num_digits chat_id <= max_str_digits ->
  num_digits thread_id <= max_str_digits ->
  num_digits message_id <= max_str_digits ->
  parse_message_link
    (link_of ["c"; decimal n; decimal thread_id; decimal message_id])
  = Return (Some (ChatId chat_id), Some thread_id, Some message_id).
Proof.
  intros Hn Hstr Hc Ht Hm.
  assert (Hplains : Forall (fun s => plain s = true)
                           (["c"; decimal n; decimal thread_id]
                              ++ [decimal message_id]))
    by plain_segments.
  destruct (link_of_plain ["c"; decimal n; decimal thread_id]
                          (decimal message_id) Hplains
                          (proj2 (decimal_plain message_id)))
    as (Hpath & Hsegs & Hmark).
  cbn [List.app] in Hpath, Hsegs, Hmark |- *.
  rewrite (parse_message_link_on_path _ _ Hpath), Hsegs.
  unfold parse_link_body. rewrite Hmark.
  cbn [existsb is_marker String.eqb Ascii.eqb Bool.eqb orb].
  change (7 <=? len _) with true.
  change (index _ (-3)) with (Return (decimal n)).
  change (index _ (-2)) with (Return (decimal thread_id)).
  change (index _ (-1)) with (Return (decimal message_id)).
  pose proof (num_digits_prefixed chat_id n Hstr) as Hdigits.
  cbn [bind]. rewrite (int_decimal n) by lia. cbn [bind].
  rewrite (int_decimal thread_id Ht). cbn [bind].
  rewrite (int_decimal message_id Hm). cbn [bind].
  rewrite (str_returns n) by lia. cbn [bind].
  rewrite <- Hstr, (int_decimal chat_id Hc). reflexivity.
Qed.

Lemma parse_private_thread_link_witness :
  parse_message_link "https://t.me/c/1234567890/17/55"
  = Return (Some (ChatId (-1001234567890)), Some 17, Some 55).
Proof.
  apply (parse_private_thread_link (-1001234567890) 1234567890 17 55);
    [lia | reflexivity | vm_compute; discriminate
     | vm_compute; discriminate | vm_compute; discriminate].
Defined.

(** X7.  A public link with a thread parses to the username, the thread id and
    the message id, for a plain username other than "c" and ids of at
    most 4300 digits. *)
Theorem parse_public_thread_link
        (username : string) (thread_id message_id : Z) :
  plain username = true -> username <> "c" ->
  num_digits thread_id <= max_str_digits ->
  num_digits message_id <= max_str_digits ->
  parse_message_link
    (link_of [username; decimal thread_id; decimal message_id])
  = Return (Some (Username username), Some thread_id, Some message_id).
Proof.
  intros Hplain Hc Ht Hm.
  assert (Hplains : Forall (fun s => plain s = true)
                           ([username; decimal thread_id]
                              ++ [decimal message_id]))
    by plain_segments.
  destruct (link_of_plain [username; decimal thread_id]
                          (decimal message_id) Hplains
                          (proj2 (decimal_plain message_id)))
    as (Hpath & Hsegs & Hmark).
  cbn [List.app] in Hpath, Hsegs, Hmark |- *.
  rewrite (parse_message_link_on_path _ _ Hpath), Hsegs.
  unfold parse_link_body, public_with_thread. rewrite Hmark.
  cbn [existsb]. rewrite decimal_not_marker. unfold is_marker.
  rewrite (proj2 (String.eqb_neq username "c") Hc). cbn [orb].
  change (6 <=? len _) with true.
  change (index _ (-3)) with (Return username).
  change (index _ (-2)) with (Return (decimal thread_id)).
  change (index _ (-1)) with (Return (decimal message_id)).
  cbn [bind]. rewrite (int_decimal thread_id Ht). cbn [bind].
  rewrite (int_decimal message_id Hm). reflexivity.
Qed.

Lemma parse_public_thread_link_witness :
  parse_message_link "https://t.me/rocq_news/3/2048"
  = Return (Some (Username "rocq_news"), Some 3, Some 2048).
Proof.
  apply (parse_public_thread_link "rocq_news" 3 2048);
    [reflexivity | discriminate | vm_compute; discriminate
     | vm_compute; discriminate].
Defined.

End LinkRoundTrips.

(** ** What the parser tolerates and what it returns *)

Section LinkShapes.

Lemma all_chars_lstrip (p q : ascii -> bool) (s : string) :
  all_chars p s = true -> all_chars p (lstrip_with q s) = true.
Proof.
  induction s as [|c s IH]; cbn [lstrip_with all_chars]; [reflexivity|].
  intros H. destruct (q c); [|exact H].
  apply andb_prop in H as [_ H]. auto.
Qed.

Lemma lstrip_with_app_stop (p : ascii -> bool) (a b : string) (c : ascii) :
  p c = false ->
  lstrip_with p (a ++ String c b) = lstrip_with p a ++ String c b.
Proof.
  intros Hc. induction a as [|x a IH]; cbn [String.append lstrip_with].
  - now rewrite Hc.
  - now destruct (p x).
Qed.

Lemma rstrip_with_app_stop (p : ascii -> bool) (a b : string) (c : ascii) :
  p c = false ->
  rstrip_with p (a ++ String c b) = a ++ String c (rstrip_with p b).
Proof.
  intros Hc. induction a as [|x a IH]; cbn [String.append rstrip_with].
  - rewrite Hc. now destruct (rstrip_with p b).
  - rewrite IH. now destruct a.
Qed.

Lemma rstrip_with_app_strip (p : ascii -> bool) (a : string) (c : ascii) :
  p c = true -> rstrip_with p (a ++ String c "") = rstrip_with p a.
Proof.
  intros Hc. induction a as [|x a IH]; cbn [String.append rstrip_with].
  - now rewrite Hc.
  - now rewrite IH.
Qed.

(** Stripping the two ends in either order. *)
Lemma strip_commutes (p : ascii -> bool) (s : string) :
  rstrip_with p (lstrip_with p s) = lstrip_with p (rstrip_with p s).
Proof.
  induction s as [|c s IH]; [reflexivity|].
  cbn [lstrip_with rstrip_with]. destruct (p c) eqn:Hc.
  - rewrite IH. destruct (rstrip_with p s) as [|d r]; [reflexivity|].
    cbn [lstrip_with]. now rewrite Hc.
  - cbn [rstrip_with]. rewrite Hc.
    destruct (rstrip_with p s); cbn [lstrip_with]; now rewrite Hc.
Qed.

Lemma lstrip_with_idempotent (p : ascii -> bool) (s : string) :
  lstrip_with p (lstrip_with p s) = lstrip_with p s.
Proof.
  induction s as [|c s IH]; [reflexivity|].
  cbn [lstrip_with]. destruct (p c) eqn:Hc; [exact IH|].
  cbn [lstrip_with]. now rewrite Hc.
Qed.

Lemma rstrip_with_idempotent (p : ascii -> bool) (s : string) :
  rstrip_with p (rstrip_with p s) = rstrip_with p s.
Proof.
  induction s as [|c s IH]; [reflexivity|].
  cbn [rstrip_with]. destruct (rstrip_with p s) as [|d r] eqn:E.
  - destruct (p c) eqn:Hc; [reflexivity|].
    cbn [rstrip_with]. now rewrite Hc.
  - cbn [rstrip_with] in IH |- *. now rewrite IH.
Qed.

Lemma strip_idempotent (s : string) : strip (strip s) = strip s.
Proof.
  unfold strip.
  rewrite <- (strip_commutes isspace (lstrip_with isspace s)).
  now rewrite lstrip_with_idempotent, rstrip_with_idempotent.
Qed.

(** X8.  Whitespace around a link is ignored. *)
Theorem surrounding_whitespace_is_ignored (link : string) :
  parse_message_link (strip link) = parse_message_link link.
Proof.
  assert (Hpath : link_path (strip link) = link_path link)
    by (unfold link_path; now rewrite strip_idempotent).
  unfold parse_message_link. now rewrite Hpath.
Qed.

(** The path of a link without question mark and trailing whitespace. *)
Lemma link_path_plain (link : string) :
  without "?" link = true -> rstrip_with isspace link = link ->
  link_path link = Return (lstrip_with isspace link).
Proof.
  intros Hq Hr. unfold link_path, strip.
  rewrite strip_commutes, Hr.
  rewrite contains_without; [reflexivity|].
  now apply all_chars_lstrip.
Qed.

(** X9.  A query string is ignored: for a link without question mark and
    without trailing whitespace, appending "?" and anything does not
    change the result. *)
Theorem query_is_ignored (link query : string) :
  without "?" link = true -> rstrip_with isspace link = link ->
  parse_message_link (link ++ "?" ++ query) = parse_message_link link.
Proof.
  intros Hq Hr.
  assert (Hpath : link_path (link ++ "?" ++ query) = link_path link).
  { rewrite (link_path_plain link Hq Hr). unfold link_path, strip.
    change ("?" ++ query) with (String "?" query).
    rewrite (lstrip_with_app_stop isspace link query "?" eq_refl).
    rewrite (rstrip_with_app_stop isspace _ query "?" eq_refl).
    rewrite contains_app_r
      by (cbn [contains String.prefix];
          destruct (ascii_dec "?" "?"); [|contradiction];
          now rewrite string_prefix_empty).
    rewrite split_char_app by (now apply all_chars_lstrip).
    reflexivity. }
  unfold parse_message_link. now rewrite Hpath.
Qed.

Lemma query_is_ignored_witness :
  parse_message_link "  https://t.me/rocq_news/2048?single&comment=7 "
  = parse_message_link "  https://t.me/rocq_news/2048".
Proof.
  apply (query_is_ignored "  https://t.me/rocq_news/2048"
                          "single&comment=7 "); reflexivity.
Defined.

Lemma index_last {A : Type} (l : list A) (a : A) :
  index (l ++ [a]) (-1) = Return a.
Proof.
  unfold index. rewrite length_app. cbn [List.length].
  replace (Z.of_nat (List.length l + 1)) with (Z.of_nat (List.length l) + 1)
    by lia.
  change (-1 <? 0) with true. cbv iota.
  replace (-1 + (Z.of_nat (List.length l) + 1))
    with (Z.of_nat (List.length l)) by lia.
  destruct (Z.ltb_spec (Z.of_nat (List.length l)) 0); [lia|].
  destruct (Z.leb_spec (Z.of_nat (List.length l) + 1)
                       (Z.of_nat (List.length l))); [lia|].
  cbn [orb]. rewrite Nat2Z.id, nth_error_app2 by lia.
  now rewrite Nat.sub_diag.
Qed.

(** After a separator, a piece without separator is the last piece. *)
Lemma split_char_last (sep : ascii) (a b : string) :
  without sep b = true ->
  exists first init,
    split_char sep (a ++ String sep b) = first :: init ++ [b].
Proof.
  intros Hb. induction a as [|x a (first & init & IH)];
    cbn [String.append split_char].
  - rewrite Ascii.eqb_refl, (split_char_without sep b Hb).
    now exists "", [].
  - rewrite IH. destruct (Ascii.eqb x sep).
    + now exists "", (first :: init).
    + now exists (String x first), init.
Qed.

(** A marker that a trailing slash completes ends the link. *)
Lemma marker_by_trailing_slash (s : string) :
  contains "/c/" (s ++ "/") = true -> contains "/c/" s = false ->
  exists before, s = before ++ "/c".
Proof.
  induction s as [|x s IH]; [discriminate|].
  cbn [String.append contains]. intros Hwith Hwithout.
  apply orb_false_iff in Hwithout as [Hpre Hrest].
  apply orb_true_iff in Hwith as [Hhere | Hlater].
  - revert Hpre Hhere. cbn [String.prefix].
    destruct (ascii_dec "/" x) as [<-|]; [|discriminate].
    destruct s as [|y s]; [discriminate|]. cbn [String.append String.prefix].
    destruct (ascii_dec "c" y) as [<-|]; [|discriminate].
    destruct s as [|z s]; [now exists ""|]. cbn [String.append String.prefix].
    destruct (ascii_dec "/" z); [|discriminate].
    rewrite string_prefix_empty. discriminate.
  - destruct (IH Hlater Hrest) as [before ->].
    now exists (String x before).
Qed.

(** X10.  A trailing slash is ignored: for a link without question mark and
    without trailing whitespace, appending "/" does not change the
    result. *)
Theorem trailing_slash_is_ignored (link : string) :
  without "?" link = true -> rstrip_with isspace link = link ->
  parse_message_link (link ++ "/") = parse_message_link link.
Proof.
  intros Hq Hr.
  set (path := lstrip_with isspace link).
  assert (Hqp : without "?" path = true) by (now apply all_chars_lstrip).
  assert (Hpath : link_path link = Return path)
    by (now apply link_path_plain).
  assert (Hpath' : link_path (link ++ "/") = Return (path ++ "/")).
  { unfold link_path, strip.
    rewrite (lstrip_with_app_stop isspace link "" "/" eq_refl).
    rewrite (rstrip_with_app_stop isspace _ "" "/" eq_refl).
    fold path. rewrite contains_without; [reflexivity|].
    unfold without. rewrite all_chars_app. fold (without "?" path).
    now rewrite Hqp. }
  rewrite (parse_message_link_on_path _ _ Hpath').
  rewrite (parse_message_link_on_path _ _ Hpath).
  assert (Hsegs : link_segments (path ++ "/") = link_segments path).
  { unfold link_segments, rstrip_char.
    now rewrite (rstrip_with_app_strip _ path "/" (Ascii.eqb_refl "/")). }
  rewrite Hsegs.
  destruct (contains "/c/" (path ++ "/")) eqn:Hwith;
    destruct (contains "/c/" path) eqn:Hwithout.
  - unfold parse_link_body. now rewrite Hwith, Hwithout.
  - destruct (marker_by_trailing_slash path Hwith Hwithout) as [before E].
    assert (Hlast : index (link_segments path) (-1) = Return "c").
    { unfold link_segments, rstrip_char. rewrite E.
      replace (before ++ "/c") with ((before ++ "/") ++ "c")
        by (now rewrite string_app_assoc).
      rewrite rstrip_with_app_keep by (discriminate || reflexivity).
      rewrite string_app_assoc.
      change (before ++ "/" ++ "c") with (before ++ String "/" "c").
      destruct (split_char_last "/" before "c" eq_refl)
        as (first & init & ->).
      apply (index_last (first :: init)). }
    destruct (parse_link_body_cases (path ++ "/") (link_segments path))
      as (r & -> & _ & _ & Hr1 & _).
    destruct (parse_link_body_cases path (link_segments path))
      as (r' & -> & _ & _ & Hr2 & _).
    now rewrite (Hr1 "c" Hlast eq_refl), (Hr2 "c" Hlast eq_refl).
  - now rewrite (contains_app_l "/c/" path "/" Hwithout) in Hwith.
  - unfold parse_link_body. now rewrite Hwith, Hwithout.
Qed.

Lemma trailing_slash_is_ignored_witness :
  parse_message_link "https://t.me/c/1234567890/55/"
  = parse_message_link "https://t.me/c/1234567890/55".
Proof.
  apply (trailing_slash_is_ignored "https://t.me/c/1234567890/55");
    reflexivity.
Defined.

End LinkShapes.

Section LinkResults.

Lemma int_prefixed_bound (n c : Z) :
  int ("-100" ++ decimal n) = Return c -> c <= -1000.
Proof.
  intros H. destruct (Z.ltb_spec n 0) as [Hneg|Hpos].
  - rewrite (int_prefixed_negative n Hneg) in H. discriminate H.
  - destruct (int_prefixed n Hpos) as (c' & Hle & Hc').
    rewrite Hc' in H. destruct (_ <? _); [discriminate H|].
    now injection H as <-.
Qed.

Ltac step_index :=
  match goal with
  | |- context [index ?l ?i] =>
      destruct (index_raises_only_IndexError l i) as [[? ->] | ->];
      cbn [bind try_except is_ValueError is_ValueError_or_IndexError]
  end.

Ltac step_int :=
  match goal with
  | |- context [int ?s] =>
      let E := fresh "Eint" in
      destruct (int_raises_only_ValueError s) as [[? E] | E]; rewrite E;
      cbn [bind try_except is_ValueError is_ValueError_or_IndexError]
  end.

Ltac step_str :=
  match goal with
  | |- context [str ?z] =>
      destruct (str_cases z) as [[_ ->] | [_ ->]];
      cbn [bind try_except is_ValueError is_ValueError_or_IndexError]
  end.

Ltac conclude :=
  intros Hr; injection Hr as <-; cbn;
  repeat split; eauto using int_prefixed_bound.

(** X11.  The kind of chat in a result: a numeric chat id comes from a link
    with the marker "/c/" only, and is at most -1000 (it carries the
    prefix "-100"); a username comes from a link without the marker only. *)
Theorem parsed_chat_kind (link path : string) (t : link_parts) :
  link_path link = Return path ->
  parse_message_link link = Return t ->
  match t with
  | (Some (ChatId chat), _, _) =>
      contains "/c/" path = true /\ chat <= -1000
  | (Some (Username _), _, _) => contains "/c/" path = false
  | (None, _, _) => True
  end.
Proof.
  intros Hpath. rewrite (parse_message_link_on_path _ _ Hpath).
  unfold parse_link_body, public_with_thread.
  destruct (contains "/c/" path).
  - destruct (7 <=? len (link_segments path));
      [|destruct (6 <=? len (link_segments path))];
      repeat (first [step_index | step_int | step_str]); conclude.
  - destruct (6 <=? len (link_segments path));
      destruct (4 <=? len (link_segments path));
      repeat (first [step_index | step_int | step_str]); conclude.
Qed.

Lemma parsed_chat_kind_witness :
  contains "/c/" "https://t.me/c/1234567890/55" = true
  /\ -1001234567890 <= -1000.
Proof.
  apply (parsed_chat_kind "https://t.me/c/1234567890/55?single"
                          "https://t.me/c/1234567890/55"
                          (Some (ChatId (-1001234567890)), None, Some 55));
    reflexivity.
Defined.

End LinkResults.

(** ** Commands and their arguments *)

Section CommandTokens.

Lemma all_chars_of_list (p : ascii -> bool) (l : list ascii) :
  all_chars p (string_of_list_ascii l) = forallb p l.
Proof. induction l as [|c l IH]; simpl; [reflexivity|now rewrite IH]. Qed.

Lemma forallb_rev {A : Type} (p : A -> bool) (l : list A) :
  forallb p (rev l) = forallb p l.
Proof.
  induction l as [|a l IH]; [reflexivity|].
  cbn [rev forallb]. rewrite forallb_app, IH. cbn [forallb].
  now rewrite andb_true_r, andb_comm.
Qed.

Lemma flush_tokens (tok : list ascii) :
  forallb (fun c => negb (isspace c)) tok = true ->
  Forall is_token (flush tok).
Proof.
  intros H. destruct tok as [|c tok]; [constructor|].
  cbn [flush]. constructor; [|constructor]. split.
  - cbn [rev]. destruct (rev tok); discriminate.
  - now rewrite all_chars_of_list, forallb_rev.
Qed.

(** Whatever the scan emits is a token. *)
Lemma split_ws_from_tokens (tok : list ascii) (s : string) :
  forallb (fun c => negb (isspace c)) tok = true ->
  Forall is_token (split_ws_from tok s).
Proof.
  revert tok. induction s as [|c s IH]; intros tok Htok;
    cbn [split_ws_from].
  - now apply flush_tokens.
  - destruct (isspace c) eqn:Hc.
    + apply Forall_app. split; [now apply flush_tokens|now apply IH].
    + apply IH. cbn [forallb]. now rewrite Hc.
Qed.

(** The scan over a token under way. *)
Lemma split_ws_from_app (tok : list ascii) (t s : string) :
  all_chars (fun c => negb (isspace c)) t = true ->
  split_ws_from tok (t ++ s)
  = split_ws_from (rev (list_ascii_of_string t) ++ tok) s.
Proof.
  revert tok. induction t as [|c t IH]; intros tok Ht; [reflexivity|].
  cbn [all_chars] in Ht. apply andb_prop in Ht as [Hc Ht].
  apply negb_true_iff in Hc.
  cbn [String.append split_ws_from list_ascii_of_string rev].
  rewrite Hc, (IH _ Ht), <- app_assoc. reflexivity.
Qed.

Lemma flush_token (t : string) :
  t <> "" -> flush (rev (list_ascii_of_string t)) = [t].
Proof.
  intros Hne. unfold flush.
  destruct (rev (list_ascii_of_string t)) eqn:E.
  - apply (f_equal (@rev ascii)) in E. rewrite rev_involutive in E.
    destruct t; [easy|discriminate E].
  - rewrite <- E, rev_involutive, string_of_list_ascii_of_string.
    reflexivity.
Qed.

(** Splitting undoes joining with single spaces, for tokens. *)
Lemma split_join_tokens (tokens : list string) :
  Forall is_token tokens -> split (join " " tokens) = tokens.
Proof.
  intros H. unfold split.
  induction H as [|t tokens [Hne Ht] Hrest IH]; [reflexivity|].
  destruct tokens as [|t' tokens].
  - pose proof (split_ws_from_app [] t "" Ht) as E.
    rewrite string_app_empty_r in E. rewrite join_one, E.
    cbn [split_ws_from]. rewrite app_nil_r. now apply flush_token.
  - rewrite join_cons, (split_ws_from_app [] t _ Ht), app_nil_r.
    cbn [String.append split_ws_from]. change (isspace " ") with true.
    cbv iota. now rewrite (flush_token t Hne), IH.
Qed.

Lemma parse_command_cons (text : string) :
  startswith "/" text = true ->
  parse_command text = first_word text :: get_command_args text.
Proof.
  unfold get_command_args, parse_command.
  intros H. pose proof H as H'.
  apply startswith_slash in H' as [rest ->].
  rewrite H. cbn [is_empty negb orb].
  rewrite (split_word "/" rest eq_refl).
  set (args := split _). cbn [List.tl].
  destruct args as [|a args]; [reflexivity|].
  replace (1 <? len (first_word (String "/" rest) :: a :: args)) with true;
    [reflexivity|].
  symmetry. apply Z.ltb_lt. unfold len. cbn [List.length]. lia.
Qed.

Lemma parse_command_tokens (text : string) :
  Forall is_token (parse_command text).
Proof.
  unfold parse_command. destruct (_ || _); [constructor|].
  now apply split_ws_from_tokens.
Qed.

(** X12.  The tokens of a command are its first word followed by its
    arguments; a text that is no command has no arguments. *)
Theorem command_and_args (text : string) :
  (startswith "/" text = true ->
   parse_command text = first_word text :: get_command_args text) /\
  (startswith "/" text = false -> get_command_args text = []).
Proof.
  split; [apply parse_command_cons|].
  intros H. unfold get_command_args, parse_command.
  rewrite H, orb_true_r. reflexivity.
Qed.

Lemma command_and_args_witness :
  parse_command "/ban  @ada 3d"
  = first_word "/ban  @ada 3d" :: get_command_args "/ban  @ada 3d"
  /\ get_command_args "ban @ada" = [].
Proof.
  split; apply (command_and_args _); reflexivity.
Defined.

(** X13.  Every token of a command, its arguments included, is not empty and
    has no whitespace. *)
Theorem command_tokens (text : string) :
  Forall is_token (parse_command text) /\
  Forall is_token (get_command_args text).
Proof.
  pose proof (parse_command_tokens text) as H.
  split; [exact H|]. unfold get_command_args.
  destruct (1 <? len (parse_command text)); [|constructor].
  destruct H; [constructor|assumption].
Qed.

(** X14.  Joining the tokens of a text with single spaces gives a text with
    the same tokens. *)
Theorem parse_command_normalises (text : string) :
  parse_command (join " " (parse_command text)) = parse_command text.
Proof.
  destruct (is_empty text || negb (startswith "/" text)) eqn:E.
  - assert (Hnone : parse_command text = [])
      by (unfold parse_command; now rewrite E).
    rewrite Hnone. reflexivity.
  - apply orb_false_iff in E as [_ E]. apply negb_false_iff in E.
    pose proof (parse_command_tokens text) as Htok.
    rewrite (parse_command_cons text E) in Htok |- *.
    set (tokens := first_word text :: get_command_args text) in *.
    unfold parse_command at 1.
    rewrite (split_join_tokens tokens Htok).
    replace (is_empty (join " " tokens)
             || negb (startswith "/" (join " " tokens))) with false;
      [reflexivity|].
    symmetry. apply orb_false_iff.
    apply startswith_slash in E as [rest ->].
    assert (Hstart : exists s, join " " tokens = String "/" s).
    { subst tokens.
      change (first_word (String "/" rest))
        with (String "/" (first_word rest)).
      destruct (get_command_args (String "/" rest)).
      - rewrite join_one. eauto.
      - rewrite join_cons. cbn [String.append]. eauto. }
    destruct Hstart as [s ->]. split; [reflexivity|].
    apply negb_false_iff. apply startswith_slash. eauto.
Qed.

End CommandTokens.

(** ** Sizes by magnitude *)

Section SizeUnits.

Lemma ge_int_exact (n : Z) :
  Float64.ge_int (Float64.mk n 0) 1024 = (2 ^ 10 <=? n).
Proof.
  unfold Float64.ge_int. cbn [Float64.mant Float64.expo].
  change (0 <=? 0) with true. cbv iota.
  now rewrite Z.pow_0_r, Z.mul_1_r.
Qed.

Lemma ge_int_scaled (n k : Z) :
  0 < k ->
  Float64.ge_int (Float64.mk n (- k)) 1024 = (2 ^ 10 * 2 ^ k <=? n).
Proof.
  intros Hk. unfold Float64.ge_int. cbn [Float64.mant Float64.expo].
  destruct (Z.leb_spec 0 (- k)); [lia|]. now rewrite Z.opp_involutive.
Qed.

Lemma div_pow2_exact (n k : Z) :
  0 <= k <= 1064 ->
  Float64.div_pow2 (Float64.mk n (- k)) 10 = Float64.mk n (- (k + 10)).
Proof.
  intros Hk. unfold Float64.div_pow2. cbn [Float64.mant Float64.expo].
  destruct (Z.leb_spec (-1074) (- k - 10)); [|lia]. f_equal. lia.
Qed.

(** The loop on a count below 2^53: one division per power of 1024 that
    the count reaches, four at most, each of them exact. *)
Lemma divide_while_by_magnitude (n : Z) :
  divide_while 4 (Float64.mk n 0)
  = (Float64.mk n (-10 * Z.of_nat (unit_index_of n)), unit_index_of n).
Proof.
  unfold unit_index_of. cbn [divide_while].
  rewrite ge_int_exact.
  change (Float64.mk n 0) with (Float64.mk n (- 0)).
  rewrite !div_pow2_exact by lia.
  rewrite !ge_int_scaled by lia.
  change (2 ^ 10 * 2 ^ (0 + 10)) with (2 ^ 20).
  change (2 ^ 10 * 2 ^ (0 + 10 + 10)) with (2 ^ 30).
  change (2 ^ 10 * 2 ^ (0 + 10 + 10 + 10)) with (2 ^ 40).
  destruct (Z.ltb_spec n (2 ^ 10)), (Z.leb_spec (2 ^ 10) n); try lia;
    [reflexivity|].
  destruct (Z.ltb_spec n (2 ^ 20)), (Z.leb_spec (2 ^ 20) n); try lia;
    [reflexivity|].
  destruct (Z.ltb_spec n (2 ^ 30)), (Z.leb_spec (2 ^ 30) n); try lia;
    [reflexivity|].
  destruct (Z.ltb_spec n (2 ^ 40)), (Z.leb_spec (2 ^ 40) n); try lia;
    reflexivity.
Qed.

(** X15.  Below 2^53 bytes the unit goes by the magnitude of the count (B below
    1024, KB below 1024^2, MB below 1024^3, GB below 1024^4, TB beyond),
    and the value printed is the count divided by 1024 to the index of
    the unit, without rounding before the printing. *)
Theorem format_size_by_magnitude (bytes_size : Z) :
  0 <= bytes_size < 2 ^ 53 ->
  format_size bytes_size
  = Return (size_text
              (Float64.mk bytes_size
                          (-10 * Z.of_nat (unit_index_of bytes_size)))
              (unit_index_of bytes_size)).
Proof.
  intros H.
  destruct (of_int_summary bytes_size) as (m & e & Hv & _ & _ & Hsmall & _).
  { split; [lia|]. apply Z.lt_trans with (2 ^ 53); [lia|reflexivity]. }
  destruct (Hsmall ltac:(lia)) as [-> ->].
  unfold format_size. destruct (Z.ltb_spec bytes_size 0); [lia|].
  rewrite Hv. cbn [bind].
  rewrite (scale_divide_while 4 _ 0 eq_refl), divide_while_by_magnitude.
  unfold unit_index_of.
  destruct (Z.ltb_spec bytes_size (2 ^ 10)) as [Hlt|_].
  { unfold size_text, Float64.to_int. cbn [Float64.mant Float64.expo].
    change (-10 * Z.of_nat 0) with 0. change (0 <=? 0) with true.
    change (0 + Z.of_nat 0 =? 0) with true. cbv iota.
    rewrite Z.pow_0_r, Z.mul_1_r, str_below_1024; [reflexivity|].
    change (2 ^ 10) with 1024 in Hlt. lia. }
  destruct (bytes_size <? 2 ^ 20); [reflexivity|].
  destruct (bytes_size <? 2 ^ 30); [reflexivity|].
  destruct (bytes_size <? 2 ^ 40); reflexivity.
Qed.

Lemma format_size_by_magnitude_witness :
  format_size 1610612736 = Return "1.50 GB".
Proof.
  rewrite (format_size_by_magnitude 1610612736); [reflexivity|].
  split; [lia|reflexivity].
Defined.

End SizeUnits.

(** ** Codes, once extracted *)

Section CodeShape.

Lemma all_digits_tail (c : ascii) (s : string) (i n : nat) :
  all_digits (String c s) (S i) n = all_digits s i n.
Proof.
  revert i. induction n as [|n IH]; intros i; [reflexivity|].
  cbn [all_digits]. now rewrite IH.
Qed.

(** The characters at positions with digits are digits, and as many. *)
Lemma substring_digits (text : string) (i n : nat) :
  all_digits text i n = true ->
  all_chars isdecimal (String.substring i n text) = true
  /\ String.length (String.substring i n text) = n.
Proof.
  revert i n. induction text as [|c text IH]; intros i n H.
  - destruct n as [|n]; [now destruct i|].
    cbn [all_digits] in H. unfold digit_at in H.
    now destruct i.
  - destruct i as [|i].
    + destruct n as [|n]; [split; reflexivity|].
      cbn [all_digits] in H. apply andb_prop in H as [Hc Hrest].
      rewrite all_digits_tail in Hrest.
      destruct (IH 0%nat n Hrest) as [Hd Hl].
      cbn [String.substring all_chars String.length].
      unfold digit_at in Hc. cbn [String.get] in Hc.
      now rewrite Hc, Hd, Hl.
    + cbn [String.substring]. apply IH.
      destruct n as [|n]; [reflexivity|].
      cbn [all_digits] in H |- *. apply andb_prop in H as [Hc Hrest].
      rewrite all_digits_tail in Hrest. rewrite Hrest, andb_true_r.
      exact Hc.
Qed.

Lemma all_digits_whole (s : string) :
  all_chars isdecimal s = true -> all_digits s 0 (String.length s) = true.
Proof.
  induction s as [|c s IH]; [reflexivity|].
  cbn [all_chars String.length all_digits]. intros H.
  apply andb_prop in H as [Hc Hs].
  rewrite all_digits_tail, (IH Hs). unfold digit_at. cbn [String.get].
  now rewrite Hc.
Qed.

Lemma substring_whole (s : string) :
  String.substring 0 (String.length s) s = s.
Proof. induction s as [|c s IH]; simpl; [reflexivity|now rewrite IH]. Qed.

(** A text that is 5 or 6 digits and nothing else is a code. *)
Lemma bare_code (s : string) :
  String.length s = 5%nat \/ String.length s = 6%nat ->
  all_chars isdecimal s = true ->
  code_at s 0 (String.length s) = true.
Proof.
  intros Hlen Hd. unfold code_at.
  rewrite (all_digits_whole s Hd). cbn [Re.word_before negb andb].
  unfold Re.word_at. rewrite (get_beyond s (0 + String.length s)) by lia.
  destruct Hlen as [-> | ->]; reflexivity.
Qed.

(** X16.  A code that is extracted is made of 5 or 6 decimal digits. *)
Theorem extracted_code_shape (text code : string) :
  extract_code_from_message text = Some code ->
  (String.length code = 5%nat \/ String.length code = 6%nat)
  /\ all_chars isdecimal code = true.
Proof.
  intros H. pose proof (extract_code_cases text) as Hcases.
  rewrite H in Hcases. destruct Hcases as (i & n & Hc & _ & ->).
  pose proof (code_at_lengths text i n Hc) as Hn.
  unfold code_at in Hc.
  apply andb_prop in Hc as [Hc _]. apply andb_prop in Hc as [Hc _].
  apply andb_prop in Hc as [_ Hd].
  destruct (substring_digits text i n Hd) as [Hall Hlen].
  rewrite Hlen. split; assumption.
Qed.

Lemma extracted_code_shape_witness :
  (String.length "482913" = 5%nat \/ String.length "482913" = 6%nat)
  /\ all_chars isdecimal "482913" = true.
Proof.
  apply (extracted_code_shape "Your login code: 482913. Do not share it.").
  reflexivity.
Defined.

(** X17.  Extracting is idempotent: the code extracted from a text is what is
    extracted from the code itself. *)
Theorem extract_code_idempotent (text code : string) :
  extract_code_from_message text = Some code ->
  extract_code_from_message code = Some code.
Proof.
  intros H. pose proof (extract_code_cases text) as Hcases.
  rewrite H in Hcases. destruct Hcases as (i & n & Hc & _ & Hcode).
  pose proof (code_at_lengths text i n Hc) as Hn.
  unfold code_at in Hc.
  apply andb_prop in Hc as [Hc _]. apply andb_prop in Hc as [Hc _].
  apply andb_prop in Hc as [_ Hd].
  destruct (substring_digits text i n Hd) as [Hall Hlen].
  rewrite <- Hcode in Hall, Hlen. clear Hd Hcode H.
  assert (Hbare : code_at code 0 (String.length code) = true)
    by (apply bare_code; [lia|exact Hall]).
  pose proof (extract_code_cases code) as Hagain.
  destruct (extract_code_from_message code) as [code'|].
  - destruct Hagain as (j & m & Hc' & Hleft & ->).
    destruct j as [|j].
    + rewrite (code_at_unique code 0 m _ Hc' Hbare).
      now rewrite substring_whole.
    + now rewrite (Hleft 0%nat _ ltac:(lia)) in Hbare.
  - now rewrite Hagain in Hbare.
Qed.

Lemma extract_code_idempotent_witness :
  extract_code_from_message "73105" = Some "73105".
Proof.
  apply (extract_code_idempotent "code 73105, valid for 5 minutes").
  reflexivity.
Defined.

End CodeShape.

(** ** Senders, names and texts *)

Section MoreAccessors.

(** X18.  The sender is the user when there is one, whatever the sender chat;
    it is [None] exactly when the message has neither. *)
Theorem get_sender_id_precedence (m : message_origin) :
  (forall user, from_user m = Some user ->
                get_sender_id m = Some (peer_id user)) /\
  (forall sender, from_user m = None -> sender_chat m = Some sender ->
                  get_sender_id m = Some (peer_id sender)) /\
  (get_sender_id m = None <-> from_user m = None /\ sender_chat m = None).
Proof.
  unfold get_sender_id. repeat split.
  - now intros user ->.
  - now intros sender -> ->.
  - destruct (from_user m); [discriminate|reflexivity].
  - destruct (from_user m); [discriminate|].
    destruct (sender_chat m); [discriminate|reflexivity].
  - now intros [-> ->].
Qed.

Lemma get_sender_id_precedence_witness :
  get_sender_id {| from_user := Some {| peer_id := 7 |};
                   sender_chat := Some {| peer_id := -1001 |};
                   chat := {| peer_id := -1001 |} |} = Some 7.
Proof.
  destruct (get_sender_id_precedence
              {| from_user := Some {| peer_id := 7 |};
                 sender_chat := Some {| peer_id := -1001 |};
                 chat := {| peer_id := -1001 |} |}) as (Huser & _).
  apply (Huser {| peer_id := 7 |}). reflexivity.
Defined.

Lemma or_else_not_empty (v : option string) (default : string) :
  default <> "" -> or_else v default <> "".
Proof.
  intros Hd. destruct v as [[|c s]|]; simpl; try assumption. discriminate.
Qed.

(** X19.  A display name is never empty. *)
Theorem get_display_name_not_empty (user : option entity) :
  get_display_name user <> "".
Proof.
  unfold get_display_name.
  destruct user as [u|]; [|discriminate].
  destruct (first_name u); [|apply or_else_not_empty; discriminate].
  destruct (title u); [discriminate|].
  apply or_else_not_empty. discriminate.
Qed.

Lemma get_display_name_not_empty_witness :
  get_display_name
    (Some {| first_name := Attr (Some "   "); last_name := Attr (Some "");
             title := Attr (Some "") |}) <> "".
Proof. apply get_display_name_not_empty. Defined.

(** X20.  The display name of a user-like value has no whitespace at its ends. *)
Theorem get_display_name_trimmed (u : entity) (first : option string) :
  first_name u = Attr first ->
  strip (get_display_name (Some u)) = get_display_name (Some u).
Proof.
  intros H. rewrite (display_name_of_user u first H).
  cbn [or_else].
  destruct (is_empty (strip (full_name first (last_name_of u))));
    [reflexivity|apply strip_idempotent].
Qed.

Lemma get_display_name_trimmed_witness :
  strip (get_display_name
           (Some {| first_name := Attr (Some "  Grace ");
                    last_name := Attr (Some "Hopper  ");
                    title := Missing |}))
  = "Grace  Hopper".
Proof.
  rewrite (get_display_name_trimmed
             {| first_name := Attr (Some "  Grace ");
                last_name := Attr (Some "Hopper  ");
                title := Missing |} (Some "  Grace ") eq_refl).
  reflexivity.
Defined.

(** X21.  The text of a message is empty exactly when it has neither a text
    nor a caption. *)
Theorem get_message_text_empty (m : message) :
  get_message_text m = "" <-> absent (text m) /\ absent (caption m).
Proof.
  unfold get_message_text, absent.
  destruct (text m) as [[|c t]|], (caption m) as [[|d k]|]; cbn;
    (split; [intros H; try discriminate H; auto
            |intros [[H1|H1] [H2|H2]]; try discriminate; reflexivity]).
Qed.

Lemma get_message_text_empty_witness :
  get_message_text {| text := Some ""; caption := None |} = "".
Proof.
  apply (get_message_text_empty {| text := Some ""; caption := None |}).
  split; [right | left]; reflexivity.
Defined.

(** X22.  The display name by the fields of the value.  [None] gives
    "Unknown".  A value with a [first_name] field gives its first and
    last names put together and trimmed, "Unknown" when both are blank,
    and the trimmed first name alone when there is no last name.  A
    value with a [title] field and no [first_name] field gives its
    title, "Unknown" when the title is [None] or empty. *)
Theorem get_display_name_by_fields :
  get_display_name None = "Unknown" /\
  (forall u first,
      first_name u = Attr first ->
      let last := last_name_of u in
      get_display_name (Some u)
      = or_else (Some (strip (full_name first last))) "Unknown" /\
      (blank first = true -> blank last = true ->
       get_display_name (Some u) = "Unknown") /\
      (truthy last = false ->
       get_display_name (Some u)
       = or_else (Some (strip (or_else first ""))) "Unknown") /\
      (forall name, first = Some name -> truthy last = false ->
                    name <> "" -> strip name = name ->
                    get_display_name (Some u) = name)) /\
  (forall u t,
      first_name u = Missing -> title u = Attr t ->
      (forall name, t = Some name -> name <> "" ->
                    get_display_name (Some u) = name) /\
      (t = None \/ t = Some "" -> get_display_name (Some u) = "Unknown")).
Proof.
  split; [reflexivity|]. split.
  - intros u first Hfirst last.
    pose proof (display_name_of_user u first Hfirst) as Hname.
    fold last in Hname.
    assert (Honly : truthy last = false ->
                    full_name first last = or_else first "").
    { intros Hl. unfold full_name. rewrite Hl. apply string_app_empty_r. }
    split; [exact Hname|]. split; [|split].
    + intros Hf Hl. rewrite Hname.
      now rewrite (strip_all_space _ (full_name_blank first last Hf Hl)).
    + intros Hl. now rewrite Hname, (Honly Hl).
    + intros name -> Hl Hne Hstrip. rewrite Hname, (Honly Hl).
      destruct name as [|c name]; [easy|].
      cbn [or_else is_empty]. rewrite Hstrip. reflexivity.
  - intros u t Hfirst Htitle. unfold get_display_name.
    rewrite Hfirst, Htitle. split.
    + intros name -> Hne. destruct name; [easy|reflexivity].
    + intros [-> | ->]; reflexivity.
Qed.

Lemma get_display_name_by_fields_witness :
  get_display_name
    (Some {| first_name := Attr (Some "Ada"); last_name := Attr None;
             title := Missing |}) = "Ada"
  /\ get_display_name
       (Some {| first_name := Missing; last_name := Missing;
                title := Attr (Some "News") |}) = "News".
Proof.
  destruct get_display_name_by_fields as (_ & Huser & Hchat).
  split.
  - destruct (Huser {| first_name := Attr (Some "Ada");
                       last_name := Attr None; title := Missing |}
                    (Some "Ada") eq_refl) as (_ & _ & _ & Hfirst).
    apply Hfirst; [reflexivity | reflexivity | discriminate | reflexivity].
  - destruct (Hchat {| first_name := Missing; last_name := Missing;
                       title := Attr (Some "News") |}
                    (Some "News") eq_refl eq_refl) as (Htitle & _).
    apply Htitle; [reflexivity | discriminate].
Defined.

End MoreAccessors.

(** ** Links and the limit on digits *)

Section LinkLimits.

(** X23.  [get_message_link] returns a link exactly when the numbers it
    prints have at most 4300 digits each: the message id, and the chat
    id when there is no username.  Otherwise it raises [ValueError]. *)
Theorem get_message_link_digit_limit
        (chat_id message_id : Z) (username : option string) :
  if (num_digits message_id <=? max_str_digits)
     && (truthy username || (num_digits chat_id <=? max_str_digits))
  then exists link, get_message_link chat_id message_id username = Return link
  else get_message_link chat_id message_id username = Raise ValueError.
Proof.
  unfold get_message_link.
  destruct (truthy username); cbn [orb].
  - rewrite andb_true_r.
    destruct (Z.leb_spec (num_digits message_id) max_str_digits) as [Hm|Hm].
    + rewrite (str_returns message_id Hm). cbn [bind]. eauto.
    + now rewrite (str_raises message_id Hm).
  - destruct (Z.leb_spec (num_digits chat_id) max_str_digits) as [Hc|Hc].
    + rewrite (str_returns chat_id Hc), andb_true_r. cbn [bind].
      destruct (Z.leb_spec (num_digits message_id) max_str_digits)
        as [Hm|Hm].
      * rewrite (str_returns message_id Hm). cbn [bind]. eauto.
      * now rewrite (str_raises message_id Hm).
    + rewrite (str_raises chat_id Hc), andb_false_r. reflexivity.
Qed.

(** X24.  A chat id that is not negative and has 4298 to 4300 digits is
    lost: the link is built, but "-100" in front of the channel number
    is more than [int] reads, and the link does not parse. *)
Theorem private_link_of_long_id (chat_id message_id : Z) :
  0 <= chat_id ->
  num_digits chat_id <= max_str_digits ->
  max_str_digits < 3 + num_digits chat_id ->
  num_digits message_id <= max_str_digits ->
  (link <- get_message_link chat_id message_id None ;;
   parse_message_link link)
  = Return no_parts.
Proof.
  intros Hpos Hc Hlong Hm.
  rewrite (private_link_of chat_id message_id Hc Hm). cbn [bind].
  destruct (decimal_shape chat_id) as (digits & _ & Hd & Hstr & _).
  destruct (Z.ltb_spec chat_id 0); [lia|].
  assert (Hno : startswith "-100" (decimal chat_id) = false)
    by (rewrite Hstr; apply prefix_minus_digits; exact Hd).
  rewrite Hno.
  rewrite (parse_private_link (decimal chat_id) chat_id message_id
                              (proj1 (decimal_plain chat_id))
                              (int_decimal chat_id Hc) Hm).
  unfold prefixed. rewrite (str_returns chat_id Hc). cbn [bind].
  destruct (int_prefixed chat_id Hpos) as (chat & _ & ->).
  apply Z.ltb_lt in Hlong. now rewrite Hlong.
Qed.

Lemma private_link_of_long_id_witness :
  (link <- get_message_link (10 ^ 4297) 5 None ;; parse_message_link link)
  = Return no_parts.
Proof.
  apply private_link_of_long_id;
    [vm_compute; discriminate | vm_compute; discriminate
     | vm_compute; reflexivity | vm_compute; discriminate].
Defined.

End LinkLimits.
